(** * CodeCraft Interactive Tutor: a model of [streamlit_app.py]

    The script is a Streamlit page: it is run from top to bottom at every
    user interaction, reads and updates [st.session_state], and draws
    elements on the page.  This development embeds the two columns of
    the script (the chat display, the chat input handler, the code
    editor and the "Run Code" handler) as a state-and-exception monad
    over the session state and the page, and the start-up and session
    initialisation before them as functions on the stored session.

    What lies outside the script is taken as data of a script run:
    the widgets' values, the reply of the remote chat service and the
    behaviour of Python's [exec] on the submitted code.  The submitted
    code runs in the host process: what it writes, how it ends, what it
    does to the session state and what it draws are all part of that
    behaviour. *)

From Stdlib Require Import NArith Ascii String.
From stdpp Require Import base option list gmap.

Local Open Scope N_scope.
Local Open Scope nat_scope.

(** ** Python strings

    A Python [str] is a sequence of Unicode code points. *)

Abbreviation str := (list N).

(** An ASCII literal as a [str]. *)
Definition lit (s : string) : str :=
  map N_of_ascii (list_ascii_of_string s).
Arguments lit : simpl never.

Definition NL : N := 10%N.

(** The emoji used by the script's messages. *)
Definition CHECK_MARK : N := 9989%N.          (* U+2705 *)
Definition COLLISION : N := 128165%N.         (* U+1F4A5 *)
Definition POLICE_LIGHT : N := 128680%N.      (* U+1F6A8 *)

(** [str.isspace] on one code point, the test [str.strip()] applies
    at both ends (CPython's [Py_UNICODE_ISSPACE]). *)
Definition is_space (c : N) : bool :=
  ((9 <=? c) && (c <=? 13) || (28 <=? c) && (c <=? 32)
   || (c =? 133) || (c =? 160) || (c =? 5760)
   || (8192 <=? c) && (c <=? 8202)
   || (c =? 8232) || (c =? 8233) || (c =? 8239) || (c =? 8287)
   || (c =? 12288))%N.

Fixpoint lstrip (s : str) : str :=
  match s with
  | c :: s' => if is_space c then lstrip s' else s
  | [] => []
  end.

Definition rstrip (s : str) : str := rev (lstrip (rev s)).

(** [s.strip()] *)
Definition strip (s : str) : str := rstrip (lstrip s).

(** Truth value of a string: [bool(s)]. *)
Definition truthy (s : str) : bool :=
  match s with [] => false | _ :: _ => true end.

(** [a or b] on strings. *)
Definition str_or (a b : str) : str := if truthy a then a else b.


(** ** Data model *)

(** The two values the script gives to a message's ['role']. *)
Inductive Role := user | assistant.

#[global] Instance Role_eq_dec : EqDecision Role.
Proof. solve_decision. Defined.

(** A message of [st.session_state.messages]:
    [{'role': ..., 'content': ...}]. *)
Record Turn := { role : Role; content : str }.

#[global] Instance Turn_eq_dec : EqDecision Turn.
Proof. solve_decision. Defined.

(** A raised Python exception, as far as the script looks at it:
    [type(e).__name__], [str(e)], whether it is an instance of
    [Exception] (and not only of [BaseException]), and the text that
    [traceback.format_exc()] gives for it, without its final line feed. *)
Record PyExc := {
  exc_type_name : str;
  exc_str : str;
  exc_is_Exception : bool;
  exc_trace : str
}.

(** [traceback.format_exc()] while [e] is being handled: every chunk the
    [traceback] module formats ends with a line feed. *)
Definition traceback_format_exc (e : PyExc) : str := exc_trace e ++ [NL].

(** Values of the variables of a namespace handed to [exec]. *)
Inductive PyVal :=
| PyNone
| PyBool (b : bool)
| PyInt (z : Z)
| PyStr (s : str).

(** The widgets' values in a script run. *)
Record Input := {
  chat_input : option str;     (* [st.chat_input(...)]: [None] or the text *)
  code_input_area : str;       (* the text area's content *)
  run_button : bool            (* [st.button("Run Code")] *)
}.

(** The chat session object kept in [st.session_state.chat]. *)
Inductive ChatSession := GenerativeChat.

(** [st.session_state] after initialisation. *)
Record SessionState := {
  chat : option ChatSession;
  messages : list Turn;
  current_code : str
}.

(** Elements drawn on the page. *)
Inductive Element :=
| ChatMessage (name : Role) (markdown : str)
| StInfo (body : str)
| StError (body : str)
| StSubheader (body : str)
| StCode (body : str) (language : str).

(** An exception object thrown by the submitted code, with what the
    [except] branch meets when it formats it: [str(exc_value)] and
    [traceback.format_exc()] call code of the exception's class and may
    raise in their turn. *)
Record Thrown := {
  exception : PyExc;
  str_raises : option PyExc;
  format_exc_raises : option PyExc
}.

(** How an execution of submitted code can end other than by reaching
    its end: an exception, or a call of [st.rerun()] or [st.stop()],
    which Streamlit implements with exceptions outside the [Exception]
    class. *)
Inductive Control :=
| Throws (t : Thrown)
| Reruns
| Stops.

(** What [exec(code, globals)] does under [redirect_stdout], started in
    the host process with the session state [s]: the text written to
    the capture buffer; whether the code closed that buffer, so that
    [output_capture.getvalue()] raises; how the execution ended, if not
    by reaching its end; the variables the code left in the [globals]
    dictionary it was given; the session state it left (the code can
    import [streamlit] and reach [st.session_state]); the elements it
    drew on the page.  Code that replaces the script's own libraries is
    outside the model. *)
Record Execution := {
  written : str;
  closed : bool;
  raised : option Control;
  assigned : gmap str PyVal;
  session_after : SessionState;
  drew : list Element
}.

(** The outcome of [chat.send_message(prompt, ...)] followed by
    [response.text]. *)
Inductive Reply :=
| Response (text : str)
| SendFailed (e : PyExc).

(** What a script run gets from outside the script. *)
Record Env := {
  send_message : str -> Reply;
  exec : str -> gmap str PyVal -> SessionState -> Execution
}.

(** History variable: the mutations a script run applies to
    [st.session_state.messages], in order.  [Append] is [messages.append];
    [ExtendContent i suffix] is [messages[i]["content"] += suffix]. *)
Inductive Mutation :=
| Append (t : Turn)
| ExtendContent (i : nat) (suffix : str).

Record App := {
  session_state : SessionState;
  page : list Element;
  journal : list Mutation
}.

(** ** The script monad *)

Inductive Outcome (A : Type) :=
| Return (a : A)
| Raise (e : PyExc)
| Rerun                       (* [st.rerun()]: a [BaseException] of Streamlit *)
| Stop.                       (* [st.stop()]: likewise *)
Arguments Return {A} a.
Arguments Raise {A} e.
Arguments Rerun {A}.
Arguments Stop {A}.

Definition Script (A : Type) : Type := App -> Outcome A * App.

Definition ret {A} (a : A) : Script A := fun s => (Return a, s).

Definition bind {A B} (m : Script A) (k : A -> Script B) : Script B :=
  fun s =>
    match m s with
    | (Return a, s') => k a s'
    | (Raise e, s') => (Raise e, s')
    | (Rerun, s') => (Rerun, s')
    | (Stop, s') => (Stop, s')
    end.

Declare Scope script_scope.
Delimit Scope script_scope with script.
Notation "x <- m ;; k" := (bind m (fun x => k))
  (at level 100, m at next level, right associativity) : script_scope.
Notation "m ;; k" := (bind m (fun _ => k))
  (at level 100, right associativity) : script_scope.
Local Open Scope script_scope.

Definition raise {A} (e : PyExc) : Script A := fun s => (Raise e, s).

(** [try: body except Exception as e: handler(e)].  [st.rerun()],
    [st.stop()] and exceptions outside the [Exception] class pass
    through. *)
Definition try_except {A} (body : Script A) (handler : PyExc -> Script A)
  : Script A :=
  fun s =>
    match body s with
    | (Raise e, s') =>
        if exc_is_Exception e then handler e s' else (Raise e, s')
    | r => r
    end.

Definition gets {A} (f : SessionState -> A) : Script A :=
  fun s => (Return (f (session_state s)), s).

Definition draw (el : Element) : Script unit :=
  fun s => (Return tt,
            {| session_state := session_state s;
               page := page s ++ [el];
               journal := journal s |}).

Definition st_rerun : Script unit := fun s => (Rerun, s).

Definition set_messages (ms : list Turn) (s : SessionState) : SessionState :=
  {| chat := chat s; messages := ms; current_code := current_code s |}.

Definition set_current_code (c : str) (s : SessionState) : SessionState :=
  {| chat := chat s; messages := messages s; current_code := c |}.

(** [st.session_state.current_code = c] *)
Definition assign_current_code (c : str) : Script unit :=
  fun s => (Return tt,
            {| session_state := set_current_code c (session_state s);
               page := page s;
               journal := journal s |}).

(** [st.session_state.messages.append(t)] *)
Definition messages_append (t : Turn) : Script unit :=
  fun s =>
    let ms := messages (session_state s) in
    (Return tt,
     {| session_state := set_messages (ms ++ [t]) (session_state s);
        page := page s;
        journal := journal s ++ [Append t] |}).

(** The exceptions the script's own list operations can raise. *)
Definition IndexError : PyExc :=
  {| exc_type_name := lit "IndexError";
     exc_str := lit "list index out of range";
     exc_is_Exception := true;
     exc_trace := lit "Traceback (most recent call last):" ++ [NL]
                  ++ lit "IndexError: list index out of range" |}.

Definition ValueError_not_in_list : PyExc :=
  {| exc_type_name := lit "ValueError";
     exc_str := lit "{...} is not in list";
     exc_is_Exception := true;
     exc_trace := lit "Traceback (most recent call last):" ++ [NL]
                  ++ lit "ValueError: {...} is not in list" |}.

(** ** Display Reconciler (script lines 98-122) *)

(** One iteration of the loop over [reversed(messages)]: the two
    assignments. *)
Definition scan_step (msg : Turn) (found : option Turn * option Turn)
  : option Turn * option Turn :=
  let '(last_assistant_msg, last_user_msg) := found in
  if bool_decide (role msg = assistant) && bool_decide (last_assistant_msg = None)
  then (Some msg, last_user_msg)
  else if bool_decide (role msg = user) && bool_decide (last_user_msg = None)
  then (last_assistant_msg, Some msg)
  else (last_assistant_msg, last_user_msg).

(** The loop, with its [break] once both messages are found. *)
Fixpoint scan (reversed : list Turn) (found : option Turn * option Turn)
  : option Turn * option Turn :=
  match reversed with
  | [] => found
  | msg :: rest =>
      let found' := scan_step msg found in
      match found' with
      | (Some _, Some _) => found'
      | _ => scan rest found'
      end
  end.

(** [select]: the most recent assistant message and the most recent user
    message found by the backward scan. *)
Definition select (ms : list Turn) : option Turn * option Turn :=
  scan (rev ms) (None, None).

(** [l.index(x)]: the position of the first element equal to [x]. *)
Fixpoint list_index (x : Turn) (l : list Turn) : option nat :=
  match l with
  | [] => None
  | y :: l' => if bool_decide (y = x) then Some 0 else S <$> list_index x l'
  end.

Definition py_index (l : list Turn) (x : Turn) : Script nat :=
  match list_index x l with
  | Some i => ret i
  | None => raise ValueError_not_in_list
  end.

(** The chat display logic. *)
Definition chat_display : Script unit :=
  ms <- gets messages;;
  let '(last_assistant_msg, last_user_msg) := select ms in
  match last_assistant_msg with
  | Some a => draw (ChatMessage assistant (content a))
  | None => ret tt
  end;;
  match last_user_msg with
  | None => ret tt
  | Some u =>
      more_recent <-
        match last_assistant_msg with
        | None => ret true
        | Some a =>
            iu <- py_index ms u;;
            ia <- py_index ms a;;
            ret (ia <? iu)
        end;;
      if more_recent then draw (ChatMessage user (content u)) else ret tt
  end.

(** ** Code Runner (script lines 164-182) *)

(** The variables the [try]/[except] block leaves behind.  In the spec's
    words: [succeeded] is [negb error_occurred], [captured_text] is
    [execution_result], [error_summary] is [error_short] and
    [error_detail] is [error_details]. *)
Record ExecutionResult := {
  execution_result : str;
  error_occurred : bool;
  error_short : option str;        (* bound in the [except] branch only *)
  error_details : str;
  result_display_content : str
}.

Definition NO_OUTPUT : str :=
  [CHECK_MARK] ++ lit " Code ran successfully (No output)".

(** An exception whose [str()] and traceback format without failing. *)
Definition plain (e : PyExc) : Thrown :=
  {| exception := e; str_raises := None; format_exc_raises := None |}.

(** What [output_capture.getvalue()] raises on a closed buffer. *)
Definition ValueError_closed_file : PyExc :=
  {| exc_type_name := lit "ValueError";
     exc_str := lit "I/O operation on closed file";
     exc_is_Exception := true;
     exc_trace := lit "Traceback (most recent call last):" ++ [NL]
                  ++ lit "ValueError: I/O operation on closed file" |}.

(** The state the execution [x] leaves, started in [a]. *)
Definition executed (a : App) (x : Execution) : App :=
  {| session_state := session_after x;
     page := page a ++ drew x;
     journal := journal a |}.

(** The [try] body (lines 172-174):
    [with contextlib.redirect_stdout(output_capture): exec(user_code, {})]
    then [output_capture.getvalue()].  It gives the captured text, or
    the exception that [except Exception] catches; [st.rerun()],
    [st.stop()] and exceptions outside the [Exception] class leave the
    [try] statement. *)
Definition exec_captured (env : Env) (user_code : str)
  : Script (str + Thrown) :=
  fun a =>
    let x := exec env user_code ∅ (session_state a) in
    let a' := executed a x in
    match raised x with
    | Some (Throws t) =>
        if exc_is_Exception (exception t) then (Return (inr t), a')
        else (Raise (exception t), a')
    | Some Reruns => (Rerun, a')
    | Some Stops => (Stop, a')
    | None =>
        if closed x then (Return (inr (plain ValueError_closed_file)), a')
        else (Return (inl (written x)), a')
    end.

Definition on_success (captured : str) : ExecutionResult :=
  let execution_result := strip captured in
  {| execution_result := execution_result;
     error_occurred := false;
     error_short := None;
     error_details := [];
     result_display_content := str_or execution_result NO_OUTPUT |}.

(** The variables the [except] branch leaves when its two formatting
    calls return. *)
Definition on_error (e : PyExc) : ExecutionResult :=
  let error_short := exc_type_name e ++ lit ": " ++ exc_str e in
  {| execution_result := [];
     error_occurred := true;
     error_short := Some error_short;
     error_details := traceback_format_exc e;
     result_display_content := [COLLISION] ++ lit " " ++ error_short |}.

(** The [except] branch (lines 178-182): [str(exc_value)] on line 180,
    then [traceback.format_exc()] on line 182; an exception raised by
    either leaves the [try] statement. *)
Definition except_branch (t : Thrown) : Script ExecutionResult :=
  match str_raises t with
  | Some e => raise e
  | None =>
      match format_exc_raises t with
      | Some e => raise e
      | None => ret (on_error (exception t))
      end
  end.

(** [run]: execute the code and capture its output or its error. *)
Definition run (env : Env) (user_code : str) : Script ExecutionResult :=
  caught <- exec_captured env user_code;;
  match caught with
  | inl captured => ret (on_success captured)
  | inr t => except_branch t
  end.

(** ** Turn orchestration *)

(** The [try]/[except] of the chat input handler (lines 131-138). *)
Definition chat_send (env : Env) (prompt : str) : Script unit :=
  try_except
    (match send_message env prompt with
     | Response text =>
         messages_append {| role := assistant; content := text |};;
         st_rerun
     | SendFailed e => raise e
     end)
    (fun e =>
       draw (StError ([POLICE_LIGHT] ++ lit " Error communicating with AI: "
                      ++ exc_str e))).

(** The body of [if prompt := st.chat_input(...)] (lines 126-138). *)
Definition chat_input_handler (env : Env) (prompt : str) : Script unit :=
  messages_append {| role := user; content := prompt |};;
  chat_send env prompt.

(** [f"```python\n{user_code}\n```"] *)
Definition user_submission_content (user_code : str) : str :=
  lit "```python" ++ [NL] ++ user_code ++ [NL] ++ lit "```".

(** [f"\n**Result:**\n```text\n{result_display_content}\n```"] *)
Definition result_suffix (result_display_content : str) : str :=
  [NL] ++ lit "**Result:**" ++ [NL] ++ lit "```text" ++ [NL]
  ++ result_display_content ++ [NL] ++ lit "```".

Definition extend (suffix : str) (t : Turn) : Turn :=
  {| role := role t; content := content t ++ suffix |}.

(** [st.session_state.messages[-1]["content"] += suffix] *)
Definition extend_last_content (suffix : str) : Script unit :=
  fun s =>
    let ms := messages (session_state s) in
    let i := pred (length ms) in
    match last ms with
    | None => (Raise IndexError, s)
    | Some t =>
        (Return tt,
         {| session_state :=
              set_messages (<[i := extend suffix t]> ms) (session_state s);
            page := page s;
            journal := journal s ++ [ExtendContent i suffix] |})
    end.

Definition ai_prompt (r : ExecutionResult) : str :=
  lit "The user ran the code shown in their last message. The result/output was:"
  ++ [NL]
  ++ lit "```text" ++ [NL] ++ result_display_content r ++ lit "```" ++ [NL; NL]
  ++ lit "(Full error trace if any: " ++ error_details r ++ lit ")" ++ [NL; NL]
  ++ lit "Please evaluate this based on the conversation context/last task. "
  ++ lit "Provide feedback according to the teaching style: praise success and suggest the next logical small step, OR if there was an error, explain the error message/concept and guide towards the fix.".

(** Sending the execution context to the service (lines 199-224). *)
Definition run_send (env : Env) (r : ExecutionResult) : Script unit :=
  c <- gets chat;;
  match c with
  | Some _ =>
      try_except
        (match send_message env (ai_prompt r) with
         | Response text =>
             messages_append {| role := assistant; content := text |};;
             st_rerun
         | SendFailed e => raise e
         end)
        (fun e =>
           draw (StError ([POLICE_LIGHT] ++ lit " Error communicating with AI: "
                          ++ exc_str e ++ [NL] ++ traceback_format_exc e)))
  | None => draw (StError (lit "Chat session not initialized."))
  end.

(** The result read-out under the editor (lines 185-192). *)
Definition show_result (r : ExecutionResult) : Script unit :=
  draw (StSubheader (lit "Result:"));;
  if error_occurred r then draw (StError (result_display_content r))
  else if truthy (execution_result r)
  then draw (StCode (result_display_content r) (lit "text"))
  else draw (StCode (result_display_content r) (lit "text")).

(** The body of [if st.button("Run Code")] (lines 153-224). *)
Definition run_button_handler (env : Env) : Script unit :=
  user_code <- gets current_code;;
  draw (StInfo (lit "Running code..."));;
  messages_append {| role := user;
                     content := user_submission_content user_code |};;
  r <- run env user_code;;
  show_result r;;
  extend_last_content (result_suffix (result_display_content r));;
  run_send env r.

(** One run of the script, from the two columns on (lines 92-228). *)
Definition script (inp : Input) (env : Env) : Script unit :=
  chat_display;;
  match chat_input inp with
  | Some prompt =>
      if truthy prompt then chat_input_handler env prompt else ret tt
  | None => ret tt
  end;;
  assign_current_code (code_input_area inp);;
  if run_button inp then run_button_handler env else ret tt.

(** A script run draws on an empty page. *)
Definition open_page (s : SessionState) : App :=
  {| session_state := s; page := []; journal := [] |}.

(** The rerun clears the page; the journal of the interaction goes on. *)
Definition clear_page (a : App) : App :=
  {| session_state := session_state a; page := []; journal := journal a |}.

(** The widgets of a run that no user action triggered. *)
Definition idle (inp : Input) : Input :=
  {| chat_input := None;
     code_input_area := code_input_area inp;
     run_button := false |}.

(** One user interaction: the script runs with the widgets' values; when
    it asks for a rerun (after a reply, or because the submitted code
    called [st.rerun()]), it runs once more with no widget triggered.  An
    exception that escapes the script is shown by Streamlit and the
    session goes on; [st.stop()] ends the run. *)
Definition interact (s : SessionState) (step : Input * Env) : App :=
  let '(inp, env) := step in
  match script inp env (open_page s) with
  | (Rerun, a) => snd (script (idle inp) env (clear_page a))
  | (_, a) => a
  end.

Definition session (s : SessionState) (steps : list (Input * Env))
  : SessionState :=
  fold_left (fun s step => session_state (interact s step)) steps s.

(** A free-text send: the user submits [prompt] in the chat input. *)
Definition free_text (editor : str) (prompt : str) (reply : Reply)
  (python : str -> gmap str PyVal -> SessionState -> Execution)
  : Input * Env :=
  ({| chat_input := Some prompt; code_input_area := editor;
      run_button := false |},
   {| send_message := fun _ => reply; exec := python |}).

(** A click on "Run Code" with [editor] in the text area. *)
Definition run_click (editor : str) : Input :=
  {| chat_input := None; code_input_area := editor; run_button := true |}.

(** A step of a session is a free-text send when the chat input holds a
    non-empty text and the button is not pressed. *)
Definition is_free_text (step : Input * Env) : bool :=
  match chat_input (fst step) with
  | Some prompt => truthy prompt && negb (run_button (fst step))
  | None => false
  end.

(** The service's reply to the free-text send of a step. *)
Definition send_succeeds (step : Input * Env) : bool :=
  match chat_input (fst step) with
  | Some prompt =>
      match send_message (snd step) prompt with
      | Response _ => true
      | SendFailed _ => false
      end
  | None => false
  end.

Definition successful_sends (steps : list (Input * Env)) : nat :=
  length (List.filter send_succeeds steps).

Definition failed_sends (steps : list (Input * Env)) : nat :=
  length (List.filter (fun step => negb (send_succeeds step)) steps).

(** ** Reading the journal *)




Definition b2n (b : bool) : nat := if b then 1 else 0.

Definition is_extension (m : Mutation) : bool :=
  match m with ExtendContent _ _ => true | Append _ => false end.

(** The number of in-place extensions in a journal. *)
Definition extensions (j : list Mutation) : nat :=
  length (List.filter is_extension j).

(** [evolves ms j ms']: the journal [j] takes the transcript [ms] to
    [ms'] by appending turns, where a user turn may be extended in place
    right after it is appended. *)
Inductive evolves : list Turn -> list Mutation -> list Turn -> Prop :=
| evolves_nil ms : evolves ms [] ms
| evolves_append ms t j ms' :
    evolves (ms ++ [t]) j ms' ->
    evolves ms (Append t :: j) ms'
| evolves_append_extend ms t suffix j ms' :
    role t = user ->
    evolves (ms ++ [extend suffix t]) j ms' ->
    evolves ms (Append t :: ExtendContent (length ms) suffix :: j) ms'.

(** [tracks n a a']: from [a] to [a'] the journal grew by a disciplined
    list of mutations with at most [n] in-place extensions, and the
    transcript changed as that list says. *)
Definition tracks (n : nat) (a a' : App) : Prop :=
  exists j,
    journal a' = journal a ++ j
    /\ evolves (messages (session_state a)) j (messages (session_state a'))
    /\ extensions j <= n.

Definition Tracked {A} (n : nat) (m : Script A) : Prop :=
  forall a, tracks n a (snd (m a)).

(** The element of the result read-out (lines 186-192). *)
Definition result_element (r : ExecutionResult) : Element :=
  if error_occurred r then StError (result_display_content r)
  else StCode (result_display_content r) (lit "text").

(** The state in which the submitted code is executed, from the state
    [a] in which the "Run Code" handler starts: the "Running code..."
    notice is drawn and the submission is appended (lines 154-161). *)
Definition submitted (a : App) : App :=
  let s := session_state a in
  let t := {| role := user;
              content := user_submission_content (current_code s) |} in
  {| session_state := set_messages (messages s ++ [t]) s;
     page := page a ++ [StInfo (lit "Running code...")];
     journal := journal a ++ [Append t] |}.

(** What the [except] branch gives for the caught exception [t]. *)
Definition handled (t : Thrown) : Outcome ExecutionResult :=
  match str_raises t with
  | Some e => Raise e
  | None =>
      match format_exc_raises t with
      | Some e => Raise e
      | None => Return (on_error (exception t))
      end
  end.

(** How [run] ends on the execution [x]. *)
Definition run_end (x : Execution) : Outcome ExecutionResult :=
  match raised x with
  | Some (Throws t) =>
      if exc_is_Exception (exception t) then handled t
      else Raise (exception t)
  | Some Reruns => Rerun
  | Some Stops => Stop
  | None =>
      if closed x then handled (plain ValueError_closed_file)
      else Return (on_success (written x))
  end.

(** The rest of the "Run Code" handler once [run] has given [r]
    (lines 184-224). *)
Definition conclude (env : Env) (r : ExecutionResult) : Script unit :=
  show_result r;;
  extend_last_content (result_suffix (result_display_content r));;
  run_send env r.

(** The state in which the handler sends the result [r], from the
    state [a] that [run] left with a transcript that is not empty: the
    result is shown and merged into the last turn. *)
Definition merged (a : App) (r : ExecutionResult) : App :=
  let ms := messages (session_state a) in
  let i := pred (length ms) in
  let suffix := result_suffix (result_display_content r) in
  {| session_state :=
       set_messages
         (match last ms with
          | Some t => <[i := extend suffix t]> ms
          | None => ms
          end)
         (session_state a);
     page := page a ++ [StSubheader (lit "Result:"); result_element r];
     journal := journal a ++ [ExtendContent i suffix] |}.

(** The execution of a click on "Run Code" from the state [a]: the code
    is the current code and runs on the session state that holds the
    submission. *)
Definition click_execution (env : Env) (a : App) : Execution :=
  exec env (current_code (session_state a)) ∅ (session_state (submitted a)).

(** What submitted code may be assumed not to do.  The code of [env]
    leaves the transcript, or the chat handle, as it finds it; its
    exceptions format without failing; it does not draw [el]. *)
Definition leaves_transcript (env : Env) : Prop :=
  forall code ns s, messages (session_after (exec env code ns s)) = messages s.

Definition leaves_chat (env : Env) : Prop :=
  forall code ns s, chat (session_after (exec env code ns s)) = chat s.



(** The turns a free-text send adds to the transcript: the prompt as a
    user turn, then the reply as an assistant turn when there is one. *)
Definition exchange (step : Input * Env) : list Turn :=
  match chat_input (fst step) with
  | Some prompt =>
      {| role := user; content := prompt |}
      :: match send_message (snd step) prompt with
         | Response text => [{| role := assistant; content := text |}]
         | SendFailed _ => []
         end
  | None => []
  end.

(** ** The display rule in the specification's words

    The most recent turn of each role, by position; the assistant turn
    first, the user turn after it when its position is strictly after
    the assistant turn's. *)
Fixpoint last_position (r : Role) (ms : list Turn) : option nat :=
  match ms with
  | [] => None
  | t :: ms' =>
      match last_position r ms' with
      | Some i => Some (S i)
      | None => if bool_decide (role t = r) then Some 0 else None
      end
  end.

Definition shown_turn (t : Turn) : Element := ChatMessage (role t) (content t).

Definition display_by_position (ms : list Turn) : list Element :=
  match last_position assistant ms, last_position user ms with
  | Some ia, Some iu =>
      (shown_turn <$> option_list (ms !! ia))
      ++ (if ia <? iu then shown_turn <$> option_list (ms !! iu) else [])
  | Some ia, None => shown_turn <$> option_list (ms !! ia)
  | None, Some iu => shown_turn <$> option_list (ms !! iu)
  | None, None => []
  end.

Definition or_else {A} (o o' : option A) : option A :=
  match o with Some _ => o | None => o' end.

Definition has_role (r : Role) (t : Turn) : bool := bool_decide (role t = r).

(** The first turn of role [r] in [l]. *)
Definition first_of (r : Role) (l : list Turn) : option Turn :=
  List.find (has_role r) l.

(** The assistant turn a reply adds to the transcript. *)
Definition reply_turns (r : Reply) : list Turn :=
  match r with
  | Response text => [{| role := assistant; content := text |}]
  | SendFailed _ => []
  end.

(** How a failed send comes back to the caller: an [Exception] is caught
    and shown with [st.error]; anything else leaves the script. *)
Definition reported (e : PyExc) (body : str) (before : App)
  (r : Outcome unit * App) : Prop :=
  if exc_is_Exception e
  then r = (Return tt, {| session_state := session_state before;
                          page := page before ++ [StError body];
                          journal := journal before |})
  else r = (Raise e, before).

(** What [chat_display] draws, as a function of the transcript. *)
Definition rendered (ms : list Turn) : list Element :=
  match select ms with
  | (Some a, Some u) =>
      match list_index u ms, list_index a ms with
      | Some iu, Some ia =>
          ChatMessage assistant (content a)
          :: (if ia <? iu then [ChatMessage user (content u)] else [])
      | _, _ => [ChatMessage assistant (content a)]
      end
  | (Some a, None) => [ChatMessage assistant (content a)]
  | (None, Some u) => [ChatMessage user (content u)]
  | (None, None) => []
  end.

Definition drawn (a : App) (els : list Element) : App :=
  {| session_state := session_state a;
     page := page a ++ els;
     journal := journal a |}.

(** The transcript and the journal are as they were in [before]. *)
Definition transcript_untouched (before : App) (r : Outcome unit * App) : Prop :=
  messages (session_state (snd r)) = messages (session_state before)
  /\ length (messages (session_state (snd r)))
     = length (messages (session_state before))
  /\ journal (snd r) = journal before.

(** ** Sample data *)

Definition turn (r : Role) (text : string) : Turn :=
  {| role := r; content := lit text |}.

(** A session right after initialisation: the tutor's first message. *)
Definition tutor_session : SessionState :=
  {| chat := Some GenerativeChat;
     messages := [turn assistant "Use print to show a message."];
     current_code := lit "print(1)" |}.

(** The transport error of an unreachable service. *)
Definition service_down : PyExc :=
  {| exc_type_name := lit "ServiceUnavailable";
     exc_str := lit "503 The service is currently unavailable.";
     exc_is_Exception := true;
     exc_trace := lit "Traceback (most recent call last):" ++ [NL]
                  ++ lit "ServiceUnavailable: 503 The service is currently unavailable." |}.


(** [x] with no [x] defined. *)
Definition name_error : PyExc :=
  {| exc_type_name := lit "NameError";
     exc_str := lit "name 'x' is not defined";
     exc_is_Exception := true;
     exc_trace := lit "Traceback (most recent call last):" ++ [NL]
                  ++ lit "  File <string>, line 1, in <module>" ++ [NL]
                  ++ lit "NameError: name 'x' is not defined" |}.

(** [raise SystemExit(1)] or [exit(1)]. *)
Definition system_exit : PyExc :=
  {| exc_type_name := lit "SystemExit";
     exc_str := lit "1";
     exc_is_Exception := false;
     exc_trace := lit "Traceback (most recent call last):" ++ [NL]
                  ++ lit "SystemExit: 1" |}.

(** An interpreter on which every code writes [out] and ends as
    [ending] says, whatever the namespace. *)
Definition python (out : str) (ending : option PyExc)
  : str -> gmap str PyVal -> SessionState -> Execution :=
  fun _ _ s =>
    {| written := out; closed := false;
       raised := (fun e => Throws (plain e)) <$> ending;
       assigned := ∅; session_after := s; drew := [] |}.

(** An interpreter that prints the value of [x] found in the namespace
    it is given, and fails on a namespace without [x]. *)
Definition python_reads_x
  : str -> gmap str PyVal -> SessionState -> Execution :=
  fun _ ns s =>
    match ns !! lit "x" with
    | Some (PyStr v) =>
        {| written := v; closed := false; raised := None; assigned := ns;
           session_after := s; drew := [] |}
    | _ =>
        {| written := []; closed := false;
           raised := Some (Throws (plain name_error)); assigned := ns;
           session_after := s; drew := [] |}
    end.

Definition service (reply : Reply)
  (py : str -> gmap str PyVal -> SessionState -> Execution) : Env :=
  {| send_message := fun _ => reply; exec := py |}.


(** What the [__str__] of [unprintable_error] raises. *)
Definition str_failure : PyExc :=
  {| exc_type_name := lit "RuntimeError";
     exc_str := lit "no text";
     exc_is_Exception := true;
     exc_trace := lit "Traceback (most recent call last):" ++ [NL]
                  ++ lit "RuntimeError: no text" |}.

(** An instance of a class [E(Exception)] whose [__str__] raises
    [RuntimeError("no text")]. *)
Definition unprintable_error : Thrown :=
  {| exception :=
       {| exc_type_name := lit "E";
          exc_str := [];
          exc_is_Exception := true;
          exc_trace := lit "Traceback (most recent call last):" ++ [NL]
                       ++ lit "E: <exception str() failed>" |};
     str_raises := Some str_failure;
     format_exc_raises := None |}.

(** An interpreter on which every code ends as [ending] says, having
    written nothing and touched nothing. *)
Definition python_ends (ending : Control)
  : str -> gmap str PyVal -> SessionState -> Execution :=
  fun _ _ s =>
    {| written := []; closed := false; raised := Some ending;
       assigned := ∅; session_after := s; drew := [] |}.



(** ** Start-up and session initialisation (script lines 11-89)

    The script runs these lines at every run, before the two columns.
    [st.stop()] ends the run there.  The static layout (page title,
    captions, headers, divider) is left out of the page. *)

Definition QUOTE : N := 34%N.

(** [st.session_state] as a run finds it: each of the three keys may be
    missing. *)
Record Store := {
  chat_key : option ChatSession;
  messages_key : option (list Turn);
  current_code_key : option str
}.

(** What start-up gets from outside the script: the environment
    variable, and the exception raised, if any, by
    [genai.configure(...)]/[genai.GenerativeModel(...)] and by
    [model.start_chat(history=...)]. *)
Record Boot := {
  GOOGLE_API_KEY : option str;
  configure : option PyExc;
  start_chat : option PyExc
}.

(** How a phase of start-up ends: the run goes on, [st.stop()] was
    called, or an exception left the script. *)
Inductive Phase (A : Type) :=
| Go (x : A)
| Halt (store : Store)
| Escape (e : PyExc) (store : Store).
Arguments Go {A} x.
Arguments Halt {A} store.
Arguments Escape {A} e store.

Definition NO_API_KEY : str :=
  [POLICE_LIGHT]
  ++ lit " Google API Key not found! Please set the GOOGLE_API_KEY environment variable in your .env file.".

(** [bool(API_KEY)] *)
Definition key_present (boot : Boot) : bool :=
  match GOOGLE_API_KEY boot with
  | Some k => truthy k
  | None => false
  end.

(** Lines 11-25. *)
Definition configuration (boot : Boot) (store : Store)
  : list Element * Phase unit :=
  if negb (key_present boot) then ([StError NO_API_KEY], Halt store)
  else
    match configure boot with
    | Some e =>
        if exc_is_Exception e
        then ([StError ([POLICE_LIGHT] ++ lit " Error configuring Google AI: "
                        ++ exc_str e)],
              Halt store)
        else ([], Escape e store)
    | None => ([], Go tt)
    end.

Definition first_user_instruction : str :=
  lit "Give the user the very first instruction: Explain the `print()` function briefly and ask them to print the message 'Hello, Learner!' using `print("
  ++ [QUOTE] ++ lit "Hello, Learner!" ++ [QUOTE] ++ lit ")`.".

(** ['print("Hello, Learner!")'] *)
Definition HELLO_LEARNER : str :=
  lit "print(" ++ [QUOTE] ++ lit "Hello, Learner!" ++ [QUOTE] ++ lit ")".

(** The [except Exception as e] of the initialisation (lines 81-83). *)
Definition start_failure (e : PyExc) (store : Store)
  : list Element * Phase Store :=
  if exc_is_Exception e
  then ([StError ([POLICE_LIGHT] ++ lit " Failed to start chat. Error: "
                  ++ exc_str e ++ [NL] ++ traceback_format_exc e)],
        Halt store)
  else ([], Escape e store).

(** Lines 65-83: [if 'chat' not in st.session_state]. *)
Definition initialise (boot : Boot) (env : Env) (store : Store)
  : list Element * Phase Store :=
  match chat_key store with
  | Some _ => ([], Go store)
  | None =>
      match start_chat boot with
      | Some e => start_failure e store
      | None =>
          let store1 := {| chat_key := Some GenerativeChat;
                           messages_key := messages_key store;
                           current_code_key := current_code_key store |} in
          match send_message env first_user_instruction with
          | SendFailed e => start_failure e store1
          | Response text =>
              ([], Go {| chat_key := Some GenerativeChat;
                         messages_key :=
                           Some [{| role := assistant; content := text |}];
                         current_code_key := Some HELLO_LEARNER |})
          end
      end
  end.

(** Lines 86-89: the missing keys get their defaults. *)
Definition ensure_defaults (store : Store) : SessionState :=
  {| chat := chat_key store;
     messages := default [] (messages_key store);
     current_code := default [] (current_code_key store) |}.

Definition to_store (s : SessionState) : Store :=
  {| chat_key := chat s;
     messages_key := Some (messages s);
     current_code_key := Some (current_code s) |}.

(** Lines 11-89. *)
Definition startup (boot : Boot) (env : Env) (store : Store)
  : list Element * Phase SessionState :=
  match configuration boot store with
  | (els, Go _) =>
      match initialise boot env store with
      | (els', Go store') => (els ++ els', Go (ensure_defaults store'))
      | (els', Halt store') => (els ++ els', Halt store')
      | (els', Escape e store') => (els ++ els', Escape e store')
      end
  | (els, Halt store') => (els, Halt store')
  | (els, Escape e store') => (els, Escape e store')
  end.

(** How a whole run of the script ends. *)
Inductive Ending :=
| Completed
| RerunRequested
| StopRequested
| Failed (e : PyExc).

(** One run of the whole script: how it ended, [st.session_state]
    after it, and the page. *)
Definition main (boot : Boot) (inp : Input) (env : Env) (store : Store)
  : Ending * Store * list Element :=
  match startup boot env store with
  | (els, Go s) =>
      let '(o, a) :=
        script inp env {| session_state := s; page := els; journal := [] |} in
      (match o with
       | Return _ => Completed
       | Raise e => Failed e
       | Rerun => RerunRequested
       | Stop => StopRequested
       end,
       to_store (session_state a), page a)
  | (els, Halt store') => (StopRequested, store', els)
  | (els, Escape e store') => (Failed e, store', els)
  end.

(** One visit of the user to the page: the script runs, and once more
    with no widget triggered when it asks for a rerun. *)
Definition visit (store : Store) (step : Boot * Input * Env)
  : Store * list Element :=
  let '(boot, inp, env) := step in
  match main boot inp env store with
  | (RerunRequested, store', _) =>
      let '(_, store'', els) := main boot (idle inp) env store' in
      (store'', els)
  | (_, store', els) => (store', els)
  end.

(** A browser session: the visits in order. *)
Definition browse (store : Store) (steps : list (Boot * Input * Env))
  : Store :=
  fold_left (fun st step => fst (visit st step)) steps store.

(** The store of a browser session that has not run the script yet. *)
Definition empty_store : Store :=
  {| chat_key := None; messages_key := None; current_code_key := None |}.

(** ** Invariants of the transcript and of the page *)

(** [Keeps I m]: the computation [m] keeps the invariant [I]. *)
Definition Keeps {A} (I : App -> Prop) (m : Script A) : Prop :=
  forall a, I a -> I (snd (m a)).

(** No assistant turn comes right after another assistant turn: every
    reply of the tutor, but the first message of the transcript, comes
    right after a user turn. *)
Fixpoint replies_follow_users (ms : list Turn) : bool :=
  match ms with
  | t1 :: ms' =>
      match ms' with
      | t2 :: _ =>
          negb (has_role assistant t1 && has_role assistant t2)
          && replies_follow_users ms'
      | [] => true
      end
  | [] => true
  end.

Definition UNINITIALISED : Element :=
  StError (lit "Chat session not initialized.").



Definition good_boot : Boot :=
  {| GOOGLE_API_KEY := Some (lit "AIza-key");
     configure := None;
     start_chat := None |}.

(** The chat handle of the state is [c]. *)
Definition same_chat (c : option ChatSession) (a : App) : Prop :=
  chat (session_state a) = c.

(** The parts of the result of [main]. *)
Definition ended (r : Ending * Store * list Element) : Ending := fst (fst r).
Definition stored (r : Ending * Store * list Element) : Store := snd (fst r).

(** A store that holds the chat handle [c] and the transcript [ms]
    (empty when the key is missing, as lines 86-87 make it). *)
Definition holds (c : ChatSession) (ms : list Turn) (store : Store) : Prop :=
  chat_key store = Some c /\ default [] (messages_key store) = ms.

(** The state after [messages.append(t)]. *)
Definition appended (t : Turn) (a : App) : App := snd (messages_append t a).

(** What the send of a handler leaves, from the state [a] in which it
    starts: the reply is appended and a rerun is asked for; an
    [Exception] is shown with [body]; another exception goes on. *)
Definition sent (reply : Reply) (body : PyExc -> str) (a : App)
  : Outcome unit * App :=
  match reply with
  | Response text =>
      (Rerun, appended {| role := assistant; content := text |} a)
  | SendFailed e =>
      if exc_is_Exception e then (Return tt, drawn a [StError (body e)])
      else (Raise e, a)
  end.

Definition chat_error_body (e : PyExc) : str :=
  [POLICE_LIGHT] ++ lit " Error communicating with AI: " ++ exc_str e.

Definition run_error_body (e : PyExc) : str :=
  [POLICE_LIGHT] ++ lit " Error communicating with AI: " ++ exc_str e
  ++ [NL] ++ traceback_format_exc e.

(** The transcript satisfies [replies_follow_users]. *)
Definition conversational (a : App) : Prop :=
  replies_follow_users (messages (session_state a)) = true.

(** No widget of the run triggers a handler: the chat input is not
    submitted or holds the empty text, and the button is not pressed. *)
Definition no_trigger (inp : Input) : bool :=
  negb (from_option truthy false (chat_input inp)) && negb (run_button inp).

(** [i] is the position of the first turn of [l] equal to [x]. *)
Definition first_at (x : Turn) (l : list Turn) (i : nat) : Prop :=
  l !! i = Some x /\ forall j, j < i -> l !! j <> Some x.


(** The state in which the "Run Code" handler starts, in a run of the
    script from [a] with the button pressed, [editor] in the text area
    and no chat input: the chat is drawn and the editor's text is the
    current code. *)
Definition at_click (editor : str) (a : App) : App :=
  {| session_state := set_current_code editor (session_state a);
     page := page a ++ rendered (messages (session_state a));
     journal := journal a |}.

(** * Properties *)

(** ** The monad's equations *)

Lemma bind_ret_l {A B} (x : A) (k : A -> Script B) (a : App) :
  bind (ret x) k a = k x a.
Proof. reflexivity. Qed.

Lemma bind_Return {A B} (m : Script A) (k : A -> Script B) a x a' :
  m a = (Return x, a') -> bind m k a = k x a'.
Proof. intros H. unfold bind. now rewrite H. Qed.

Lemma bind_Raise {A B} (m : Script A) (k : A -> Script B) a e a' :
  m a = (Raise e, a') -> bind m k a = (Raise e, a').
Proof. intros H. unfold bind. now rewrite H. Qed.

Lemma bind_Rerun {A B} (m : Script A) (k : A -> Script B) a a' :
  m a = (Rerun, a') -> bind m k a = (Rerun, a').
Proof. intros H. unfold bind. now rewrite H. Qed.

Lemma bind_Stop {A B} (m : Script A) (k : A -> Script B) a a' :
  m a = (Stop, a') -> bind m k a = (Stop, a').
Proof. intros H. unfold bind. now rewrite H. Qed.

Lemma drawn_nil a : drawn a [] = a.
Proof. destruct a. unfold drawn. simpl. now rewrite app_nil_r. Qed.

Lemma drawn_drawn a els els' : drawn (drawn a els) els' = drawn a (els ++ els').
Proof. unfold drawn. simpl. now rewrite app_assoc. Qed.

Lemma draw_drawn el a : draw el a = (Return tt, drawn a [el]).
Proof. reflexivity. Qed.

(** ** Display Reconciler *)

Lemma list_index_elem (x : Turn) (l : list Turn) :
  x ∈ l -> is_Some (list_index x l).
Proof.
  induction l as [|y l IH]; intros Hin.
  - inversion Hin.
  - simpl. case_bool_decide; [eauto|].
    destruct IH as [i Hi].
    + apply elem_of_cons in Hin as [->|Hin]; [congruence|assumption].
    + rewrite Hi. eauto.
Qed.

Lemma list_index_lookup (x : Turn) (l : list Turn) i :
  list_index x l = Some i -> l !! i = Some x.
Proof.
  revert i. induction l as [|y l IH]; intros i; simpl; [discriminate|].
  case_bool_decide.
  - intros [= <-]. simpl. congruence.
  - destruct (list_index x l) as [j|]; simpl; [|discriminate].
    intros [= <-]. simpl. now apply IH.
Qed.

(** The index Python finds is the turn's own position when no turn
    occurs twice. *)
Lemma list_index_NoDup (x : Turn) (l : list Turn) i :
  NoDup l -> l !! i = Some x -> list_index x l = Some i.
Proof.
  intros Hnd Hi.
  destruct (list_index_elem x l) as [j Hj].
  { apply list_elem_of_lookup. eauto. }
  rewrite Hj. f_equal.
  apply list_index_lookup in Hj.
  eapply NoDup_lookup; eauto.
Qed.

(** The backward scan finds the first turn of each role it meets. *)
Lemma scan_spec (l : list Turn) (la lu : option Turn) :
  scan l (la, lu)
  = (or_else la (first_of assistant l), or_else lu (first_of user l)).
Proof.
  revert la lu. induction l as [|msg l IH]; intros la lu.
  - destruct la, lu; reflexivity.
  - unfold first_of, has_role in *.
    destruct msg as [[] c]; destruct la as [ta|], lu as [tu|];
      simpl; rewrite ?IH; reflexivity.
Qed.

Lemma select_spec (ms : list Turn) :
  select ms = (first_of assistant (rev ms), first_of user (rev ms)).
Proof. unfold select. now rewrite scan_spec. Qed.

Lemma first_of_elem r (l : list Turn) t :
  first_of r l = Some t -> t ∈ l /\ role t = r.
Proof.
  unfold first_of. intros H. apply find_some in H as [Hin Hr].
  split; [now apply list_elem_of_In|].
  unfold has_role in Hr. now apply bool_decide_eq_true in Hr.
Qed.

Lemma select_elem (ms : list Turn) la lu :
  select ms = (la, lu) ->
  (forall a, la = Some a -> a ∈ ms /\ role a = assistant)
  /\ (forall u, lu = Some u -> u ∈ ms /\ role u = user).
Proof.
  rewrite select_spec. intros [= <- <-].
  split; intros t Ht; apply first_of_elem in Ht as [Hin Hr];
    (split; [|assumption]);
    apply list_elem_of_In; apply list_elem_of_In in Hin; now apply in_rev.
Qed.

(** The chat display never raises, leaves the session state alone and
    draws [rendered] of the transcript. *)
Lemma chat_display_drawn (a : App) :
  chat_display a = (Return tt, drawn a (rendered (messages (session_state a)))).
Proof.
  unfold chat_display, rendered.
  set (ms := messages (session_state a)).
  erewrite bind_Return by reflexivity. fold ms.
  destruct (select ms) as [la lu] eqn:Hsel.
  destruct (select_elem _ _ _ Hsel) as [Ha Hu].
  destruct la as [ta|], lu as [tu|].
  - destruct (Ha ta eq_refl) as [Hina _], (Hu tu eq_refl) as [Hinu _].
    destruct (list_index_elem _ _ Hina) as [ia Hia].
    destruct (list_index_elem _ _ Hinu) as [iu Hiu].
    rewrite Hia, Hiu.
    unfold bind, py_index. rewrite draw_drawn, Hia, Hiu. simpl.
    destruct (ia <? iu); simpl.
    + now rewrite draw_drawn, drawn_drawn.
    + reflexivity.
  - unfold bind. now rewrite draw_drawn.
  - unfold bind. simpl. now rewrite draw_drawn.
  - unfold bind. simpl. now rewrite drawn_nil.
Qed.

Lemma first_of_app r (l1 l2 : list Turn) :
  first_of r (l1 ++ l2) = or_else (first_of r l1) (first_of r l2).
Proof.
  unfold first_of. induction l1 as [|t l1 IH]; simpl; [reflexivity|].
  destruct (has_role r t); simpl; [reflexivity|assumption].
Qed.

Lemma last_position_lookup r (ms : list Turn) i :
  last_position r ms = Some i ->
  exists t, ms !! i = Some t /\ role t = r.
Proof.
  revert i. induction ms as [|t ms IH]; intros i; simpl; [discriminate|].
  destruct (last_position r ms) as [j|].
  - intros [= <-]. simpl. now apply IH.
  - case_bool_decide; [|discriminate].
    intros [= <-]. simpl. eauto.
Qed.

(** Scanning backward finds the turn at the last position of the role. *)
Lemma first_of_rev r (ms : list Turn) :
  first_of r (rev ms) = last_position r ms ≫= (ms !!.).
Proof.
  induction ms as [|t ms IH]; [reflexivity|].
  simpl rev. rewrite first_of_app, IH. simpl.
  destruct (last_position r ms) as [i|] eqn:Hpos; simpl.
  - destruct (last_position_lookup _ _ _ Hpos) as (t' & -> & _). reflexivity.
  - unfold first_of, has_role. simpl.
    case_bool_decide; reflexivity.
Qed.

(** On a transcript in which no turn occurs twice, the script draws
    what the positional rule asks for. *)
Lemma rendered_by_position (ms : list Turn) :
  NoDup ms -> rendered ms = display_by_position ms.
Proof.
  intros Hnd. unfold rendered, display_by_position.
  rewrite select_spec, !first_of_rev.
  destruct (last_position assistant ms) as [ia|] eqn:Ha;
    destruct (last_position user ms) as [iu|] eqn:Hu; simpl.
  - destruct (last_position_lookup _ _ _ Ha) as (ta & Hta & Hra).
    destruct (last_position_lookup _ _ _ Hu) as (tu & Htu & Hru).
    rewrite Hta, Htu. simpl.
    rewrite (list_index_NoDup _ _ _ Hnd Hta), (list_index_NoDup _ _ _ Hnd Htu).
    unfold shown_turn. rewrite Hra, Hru.
    destruct (ia <? iu); reflexivity.
  - destruct (last_position_lookup _ _ _ Ha) as (ta & Hta & Hra).
    rewrite Hta. simpl. unfold shown_turn. now rewrite Hra.
  - destruct (last_position_lookup _ _ _ Hu) as (tu & Htu & Hru).
    rewrite Htu. simpl. unfold shown_turn. now rewrite Hru.
  - reflexivity.
Qed.

(** ** Code Runner *)

Lemma except_branch_handled t a : except_branch t a = (handled t, a).
Proof.
  unfold except_branch, handled.
  destruct (str_raises t); [reflexivity|].
  destruct (format_exc_raises t); reflexivity.
Qed.

(** [run] on the state [a]: the code is executed once, on the empty
    namespace and the session state of [a]; the state after [run] is the
    one the execution left. *)
Lemma run_spec env code a :
  run env code a
  = (run_end (exec env code ∅ (session_state a)),
     executed a (exec env code ∅ (session_state a))).
Proof.
  unfold run, bind, exec_captured, run_end.
  destruct (raised (exec env code ∅ (session_state a))) as [[t| |]|];
    try reflexivity.
  - destruct (exc_is_Exception (exception t)); [|reflexivity].
    apply except_branch_handled.
  - destruct (closed (exec env code ∅ (session_state a))); [|reflexivity].
    apply except_branch_handled.
Qed.


Lemma run_end_Exception x t :
  raised x = Some (Throws t) -> exc_is_Exception (exception t) = true ->
  run_end x = handled t.
Proof. intros H He. unfold run_end. now rewrite H, He. Qed.

Lemma run_end_BaseException x t :
  raised x = Some (Throws t) -> exc_is_Exception (exception t) = false ->
  run_end x = Raise (exception t).
Proof. intros H He. unfold run_end. now rewrite H, He. Qed.

Lemma handled_printable t :
  str_raises t = None -> format_exc_raises t = None ->
  handled t = Return (on_error (exception t)).
Proof. intros H1 H2. unfold handled. now rewrite H1, H2. Qed.

(** ** The two sends *)

Lemma chat_send_Response env prompt text a :
  send_message env prompt = Response text ->
  chat_send env prompt a
  = (Rerun, snd (messages_append {| role := assistant; content := text |} a)).
Proof. intros H. unfold chat_send, try_except. now rewrite H. Qed.

Lemma chat_send_SendFailed env prompt e a :
  send_message env prompt = SendFailed e ->
  reported e ([POLICE_LIGHT] ++ lit " Error communicating with AI: " ++ exc_str e)
    a (chat_send env prompt a).
Proof.
  intros H. unfold chat_send, try_except, reported. rewrite H. simpl.
  destruct (exc_is_Exception e); reflexivity.
Qed.

Lemma run_send_Response env r text a c :
  chat (session_state a) = Some c ->
  send_message env (ai_prompt r) = Response text ->
  run_send env r a
  = (Rerun, snd (messages_append {| role := assistant; content := text |} a)).
Proof.
  intros Hc H. unfold run_send, try_except, bind, gets. now rewrite Hc, H.
Qed.

Lemma run_send_SendFailed env r e a c :
  chat (session_state a) = Some c ->
  send_message env (ai_prompt r) = SendFailed e ->
  reported e ([POLICE_LIGHT] ++ lit " Error communicating with AI: " ++ exc_str e
              ++ [NL] ++ traceback_format_exc e)
    a (run_send env r a).
Proof.
  intros Hc H. unfold run_send, try_except, bind, gets, reported.
  rewrite Hc, H. simpl.
  destruct (exc_is_Exception e); reflexivity.
Qed.

Lemma reported_session e body a r :
  reported e body a r ->
  session_state (snd r) = session_state a /\ journal (snd r) = journal a.
Proof.
  unfold reported. destruct (exc_is_Exception e); intros ->; now split.
Qed.

(** ** Script runs *)

(** A run in which no widget is triggered only redraws the chat and
    stores the editor's text. *)
Lemma script_idle inp env a :
  script (idle inp) env a
  = (Return tt,
     {| session_state := set_current_code (code_input_area inp) (session_state a);
        page := page a ++ rendered (messages (session_state a));
        journal := journal a |}).
Proof.
  unfold script. erewrite bind_Return by apply chat_display_drawn.
  reflexivity.
Qed.

Lemma chat_input_handler_Response env prompt text a :
  send_message env prompt = Response text ->
  chat_input_handler env prompt a
  = (Rerun,
     snd (messages_append {| role := assistant; content := text |}
            (snd (messages_append {| role := user; content := prompt |} a)))).
Proof.
  intros H. unfold chat_input_handler.
  erewrite bind_Return by reflexivity. now apply chat_send_Response.
Qed.

Lemma chat_input_handler_SendFailed env prompt e a :
  send_message env prompt = SendFailed e ->
  reported e ([POLICE_LIGHT] ++ lit " Error communicating with AI: " ++ exc_str e)
    (snd (messages_append {| role := user; content := prompt |} a))
    (chat_input_handler env prompt a).
Proof.
  intros H. unfold chat_input_handler.
  erewrite bind_Return by reflexivity. now apply chat_send_SendFailed.
Qed.

(** The transcript after a free-text send: the user's turn, then the
    assistant's reply when the service gave one. *)
Lemma interact_free_text s inp env prompt :
  chat_input inp = Some prompt -> truthy prompt = true ->
  run_button inp = false ->
  let a := interact s (inp, env) in
  messages (session_state a)
  = messages s ++ {| role := user; content := prompt |}
                  :: reply_turns (send_message env prompt)
  /\ journal a
     = Append {| role := user; content := prompt |}
       :: (Append <$> reply_turns (send_message env prompt))
  /\ chat (session_state a) = chat s.
Proof.
  intros Hin Ht Hb. unfold interact.
  destruct (script inp env (open_page s)) as [o a1] eqn:Hs.
  unfold script in Hs.
  erewrite bind_Return in Hs by apply chat_display_drawn.
  rewrite Hin, Ht, Hb in Hs.
  destruct (send_message env prompt) as [text|e] eqn:Hsend.
  - erewrite bind_Rerun in Hs
      by (apply chat_input_handler_Response; exact Hsend).
    injection Hs as <- <-.
    rewrite script_idle. simpl. rewrite <- app_assoc. auto.
  - pose proof (chat_input_handler_SendFailed env prompt e
                  (drawn (open_page s) (rendered (messages s))) Hsend) as Hrep.
    unfold reported in Hrep.
    destruct (exc_is_Exception e).
    + erewrite bind_Return in Hs by exact Hrep.
      injection Hs as <- <-. simpl. auto.
    + erewrite bind_Raise in Hs by exact Hrep.
      injection Hs as <- <-. simpl. auto.
Qed.

(** ** How a script run changes the transcript *)

Lemma evolves_app ms j1 ms1 j2 ms2 :
  evolves ms j1 ms1 -> evolves ms1 j2 ms2 -> evolves ms (j1 ++ j2) ms2.
Proof.
  induction 1 as [ms|ms t j ms' _ IH|ms t sfx j ms' Hr _ IH]; intros H2; simpl.
  - assumption.
  - constructor. now apply IH.
  - constructor; [assumption|]. now apply IH.
Qed.

Lemma evolves_prefix ms j ms' :
  evolves ms j ms' -> exists suffix, ms' = ms ++ suffix.
Proof.
  induction 1 as [ms|ms t j ms' _ [sfx ->]|ms t sfx' j ms' _ _ [sfx ->]].
  - exists []. now rewrite app_nil_r.
  - eexists. now rewrite <- app_assoc.
  - eexists. now rewrite <- app_assoc.
Qed.




Lemma extensions_app j1 j2 :
  extensions (j1 ++ j2) = extensions j1 + extensions j2.
Proof. unfold extensions. now rewrite List.filter_app, length_app. Qed.

Lemma tracks_same n a a' :
  messages (session_state a') = messages (session_state a) ->
  journal a' = journal a ->
  tracks n a a'.
Proof.
  intros Hm Hj. exists []. rewrite Hm, Hj, app_nil_r.
  repeat split; [constructor|unfold extensions; simpl; lia].
Qed.

Lemma tracks_trans n n' a a1 a2 :
  tracks n a a1 -> tracks n' a1 a2 -> tracks (n + n') a a2.
Proof.
  intros (j1 & Hj1 & He1 & Hn1) (j2 & Hj2 & He2 & Hn2).
  exists (j1 ++ j2). rewrite Hj2, Hj1, app_assoc, extensions_app.
  repeat split; [eapply evolves_app; eassumption|lia].
Qed.

Lemma tracks_weaken n n' a a' : n <= n' -> tracks n a a' -> tracks n' a a'.
Proof. intros Hle (j & ? & ? & ?). exists j. repeat split; auto; lia. Qed.

Lemma Tracked_weaken {A} n n' (m : Script A) :
  n <= n' -> Tracked n m -> Tracked n' m.
Proof. intros Hle H a. eapply tracks_weaken; eauto. Qed.

Lemma Tracked_ret {A} (x : A) : Tracked 0 (ret x).
Proof. intros a. now apply tracks_same. Qed.

Lemma Tracked_raise {A} e : Tracked 0 (@raise A e).
Proof. intros a. now apply tracks_same. Qed.

Lemma Tracked_st_rerun : Tracked 0 st_rerun.
Proof. intros a. now apply tracks_same. Qed.

Lemma Tracked_gets {A} (f : SessionState -> A) : Tracked 0 (gets f).
Proof. intros a. now apply tracks_same. Qed.

Lemma Tracked_draw el : Tracked 0 (draw el).
Proof. intros a. now apply tracks_same. Qed.

Lemma Tracked_assign_current_code c : Tracked 0 (assign_current_code c).
Proof. intros a. now apply tracks_same. Qed.

Lemma Tracked_messages_append t : Tracked 0 (messages_append t).
Proof.
  intros a. exists [Append t]. simpl.
  repeat split; [repeat constructor|unfold extensions; simpl; lia].
Qed.

Lemma Tracked_bind {A B} n n' (m : Script A) (k : A -> Script B) :
  Tracked n m -> (forall x, Tracked n' (k x)) -> Tracked (n + n') (bind m k).
Proof.
  intros Hm Hk a. specialize (Hm a). unfold bind.
  destruct (m a) as [[x|e| |] a1]; simpl in *;
    try (eapply tracks_weaken; [|exact Hm]; lia).
  eapply tracks_trans; [exact Hm|apply Hk].
Qed.

Lemma Tracked_try_except {A} n n' (body : Script A) handler :
  Tracked n body -> (forall e, Tracked n' (handler e)) ->
  Tracked (n + n') (try_except body handler).
Proof.
  intros Hb Hh a. specialize (Hb a). unfold try_except.
  destruct (body a) as [[x|e| |] a1]; simpl in *;
    try (eapply tracks_weaken; [|exact Hb]; lia).
  destruct (exc_is_Exception e).
  - eapply tracks_trans; [exact Hb|apply Hh].
  - eapply tracks_weaken; [|exact Hb]. lia.
Qed.

Lemma Tracked_chat_display : Tracked 0 chat_display.
Proof. intros a. rewrite chat_display_drawn. now apply tracks_same. Qed.

Lemma Tracked_send_body env prompt :
  Tracked 0
    (match send_message env prompt with
     | Response text =>
         messages_append {| role := assistant; content := text |};; st_rerun
     | SendFailed e => raise e
     end).
Proof.
  destruct (send_message env prompt).
  - apply (Tracked_bind 0 0); [apply Tracked_messages_append|].
    intros _. apply Tracked_st_rerun.
  - apply Tracked_raise.
Qed.

Lemma Tracked_chat_send env prompt : Tracked 0 (chat_send env prompt).
Proof.
  apply (Tracked_try_except 0 0); [apply Tracked_send_body|].
  intros e. apply Tracked_draw.
Qed.

Lemma Tracked_chat_input_handler env prompt :
  Tracked 0 (chat_input_handler env prompt).
Proof.
  apply (Tracked_bind 0 0); [apply Tracked_messages_append|].
  intros _. apply Tracked_chat_send.
Qed.

Lemma Tracked_run_send env r : Tracked 0 (run_send env r).
Proof.
  apply (Tracked_bind 0 0); [apply Tracked_gets|].
  intros [c|]; [|apply Tracked_draw].
  apply (Tracked_try_except 0 0); [apply Tracked_send_body|].
  intros e. apply Tracked_draw.
Qed.

Lemma show_result_drawn r a :
  show_result r a
  = (Return tt, drawn a [StSubheader (lit "Result:"); result_element r]).
Proof.
  unfold show_result, result_element.
  erewrite bind_Return by apply draw_drawn.
  destruct (error_occurred r); [|destruct (truthy (execution_result r))];
    now rewrite draw_drawn, drawn_drawn.
Qed.

(** The in-place update acts on the turn that is last at that moment. *)
Lemma extend_last_content_snoc suffix a ms t :
  messages (session_state a) = ms ++ [t] ->
  extend_last_content suffix a
  = (Return tt,
     {| session_state :=
          set_messages (ms ++ [extend suffix t]) (session_state a);
        page := page a;
        journal := journal a ++ [ExtendContent (length ms) suffix] |}).
Proof.
  intros H. unfold extend_last_content. rewrite H, last_snoc.
  rewrite length_app, Nat.add_1_r, Nat.pred_succ.
  replace (length ms) with (length ms + 0) at 1 by lia.
  now rewrite insert_app_r.
Qed.

(** The "Run Code" handler, when the code's exception is not an
    [Exception]: the submission stays in the transcript as appended and
    the exception leaves the handler. *)

(** The end of the "Run Code" handler from a state whose transcript is
    not empty: the result is shown, merged into the last turn, and
    sent. *)
Lemma conclude_merged env r a :
  messages (session_state a) <> [] ->
  conclude env r a = run_send env r (merged a r).
Proof.
  intros Hne. unfold conclude.
  erewrite bind_Return by apply show_result_drawn.
  unfold bind at 1. unfold extend_last_content, merged.
  cbn [session_state drawn page journal].
  destruct (last (messages (session_state a))) as [t|] eqn:Hl.
  - reflexivity.
  - apply last_None in Hl. contradiction.
Qed.


Lemma merged_snoc a r ms t :
  messages (session_state a) = ms ++ [t] ->
  messages (session_state (merged a r))
  = ms ++ [extend (result_suffix (result_display_content r)) t]
  /\ journal (merged a r)
     = journal a
       ++ [ExtendContent (length ms) (result_suffix (result_display_content r))].
Proof.
  intros H. unfold merged. simpl. rewrite H, last_snoc.
  rewrite length_app, Nat.add_1_r, Nat.pred_succ.
  replace (length ms) with (length ms + 0) at 1 by lia.
  now rewrite insert_app_r.
Qed.

(** The "Run Code" handler: the submission is appended, the code runs
    on the session state that holds it, and the handler goes on or ends
    as [run] does. *)
Lemma run_button_handler_spec env a :
  let x := click_execution env a in
  let a2 := executed (submitted a) x in
  run_button_handler env a
  = match run_end x with
    | Return r => conclude env r a2
    | Raise e => (Raise e, a2)
    | Rerun => (Rerun, a2)
    | Stop => (Stop, a2)
    end.
Proof.
  intros x a2. unfold run_button_handler.
  erewrite bind_Return by reflexivity.
  erewrite bind_Return by reflexivity.
  erewrite bind_Return by reflexivity.
  unfold bind at 1. rewrite run_spec. reflexivity.
Qed.

Lemma tracks_submitted a : tracks 1 a (submitted a).
Proof.
  eexists. split; [reflexivity|]. split.
  - simpl. repeat constructor.
  - unfold extensions. simpl. lia.
Qed.

(** When the code leaves the transcript as it is, the handler merges
    the result into the submission it appended. *)
Lemma tracks_merged env a r :
  leaves_transcript env ->
  tracks 1 a (merged (executed (submitted a) (click_execution env a)) r).
Proof.
  intros Hl.
  set (a2 := executed (submitted a) (click_execution env a)).
  assert (Hm : messages (session_state a2)
               = messages (session_state a)
                 ++ [{| role := user;
                        content := user_submission_content
                                     (current_code (session_state a)) |}]).
  { unfold a2, click_execution. cbn [executed session_state]. now rewrite Hl. }
  destruct (merged_snoc a2 r _ _ Hm) as [Hms Hj].
  eexists. split; [|split].
  - rewrite Hj. unfold a2. cbn [executed journal submitted].
    rewrite <- app_assoc. reflexivity.
  - rewrite Hms. apply evolves_append_extend; [reflexivity|constructor].
  - unfold extensions. simpl. lia.
Qed.

Lemma tracks_executed env a :
  leaves_transcript env ->
  tracks 1 a (executed (submitted a) (click_execution env a)).
Proof.
  intros Hl. eexists. split; [reflexivity|]. split.
  - unfold click_execution. cbn [executed session_state]. rewrite Hl.
    simpl. repeat constructor.
  - unfold extensions. simpl. lia.
Qed.

Lemma Tracked_run_button_handler env :
  leaves_transcript env -> Tracked 1 (run_button_handler env).
Proof.
  intros Hl a. rewrite run_button_handler_spec.
  destruct (run_end (click_execution env a)) as [r|e| |];
    try (apply tracks_executed; exact Hl).
  rewrite conclude_merged.
  - eapply (tracks_trans 1 0); [now apply tracks_merged|apply Tracked_run_send].
  - unfold click_execution. cbn [executed session_state]. rewrite Hl.
    simpl. now destruct (messages (session_state a)).
Qed.

Lemma Tracked_script inp env :
  leaves_transcript env ->
  Tracked (b2n (run_button inp)) (script inp env).
Proof.
  intros Hl. unfold script.
  apply (Tracked_bind 0); [apply Tracked_chat_display|]. intros _.
  apply (Tracked_bind 0).
  { destruct (chat_input inp) as [prompt|]; [|apply Tracked_ret].
    destruct (truthy prompt);
      [apply Tracked_chat_input_handler|apply Tracked_ret]. }
  intros _.
  apply (Tracked_bind 0); [apply Tracked_assign_current_code|]. intros _.
  destruct (run_button inp);
    [now apply Tracked_run_button_handler|apply Tracked_ret].
Qed.


(** ** [str.strip] *)






Lemma str_or_truthy (a b : str) : truthy b = true -> truthy (str_or a b) = true.
Proof. unfold str_or. destruct a; simpl; auto. Qed.

(** ** The claims *)








(** It fails as well on an exception whose [__str__] raises: line 180
    raises inside the [except] branch, [run] gives no result and the new
    exception leaves the handler and the script. *)
Lemma unprintable_error_leaves_run :
  let env := service (Response []) (python_ends (Throws unprintable_error)) in
  exc_is_Exception (exception unprintable_error) = true
  /\ run env (lit "raise E()") (open_page tutor_session)
     = (Raise str_failure, open_page tutor_session)
  /\ fst (script (run_click (lit "raise E()")) env (open_page tutor_session))
     = Raise str_failure.
Proof. vm_compute. repeat split. Qed.

(** C2. A send to the remote service that fails: the failure comes back
    to the caller (shown with [st.error] when it is an [Exception],
    raised out of the handler otherwise) and the transcript after the
    failed send is the transcript before it: same turns, same length, no
    assistant turn appended.  This holds for the send of the chat input
    handler and for the send of the "Run Code" handler. *)
Theorem failed_send_leaves_transcript env e prompt r a c :
  (forall p, send_message env p = SendFailed e) ->
  chat (session_state a) = Some c ->
  (reported e ([POLICE_LIGHT] ++ lit " Error communicating with AI: "
               ++ exc_str e) a (chat_send env prompt a)
   /\ transcript_untouched a (chat_send env prompt a))
  /\ (reported e ([POLICE_LIGHT] ++ lit " Error communicating with AI: "
                  ++ exc_str e ++ [NL] ++ traceback_format_exc e)
        a (run_send env r a)
      /\ transcript_untouched a (run_send env r a)).
Proof.
  intros Hfail Hc.
  pose proof (chat_send_SendFailed env prompt e a (Hfail _)) as H1.
  pose proof (run_send_SendFailed env r e a c Hc (Hfail _)) as H2.
  split; (split; [assumption|]); unfold transcript_untouched.
  - destruct (reported_session _ _ _ _ H1) as [-> ->]. auto.
  - destruct (reported_session _ _ _ _ H2) as [-> ->]. auto.
Qed.

Lemma failed_send_leaves_transcript_witness :
  (forall p, send_message (service (SendFailed service_down) (python [] None)) p
             = SendFailed service_down)
  /\ chat (session_state (open_page tutor_session)) = Some GenerativeChat
  /\ transcript_untouched (open_page tutor_session)
       (chat_send (service (SendFailed service_down) (python [] None))
          (lit "next") (open_page tutor_session))
  /\ transcript_untouched (open_page tutor_session)
       (run_send (service (SendFailed service_down) (python [] None))
          (on_success (lit "1")) (open_page tutor_session)).
Proof.
  split; [reflexivity|]. split; [reflexivity|].
  destruct (failed_send_leaves_transcript
              (service (SendFailed service_down) (python [] None))
              service_down (lit "next") (on_success (lit "1"))
              (open_page tutor_session) GenerativeChat
              (fun _ => eq_refl) eq_refl)
    as [[_ H1] [_ H2]].
  split; assumption.
Defined.

Lemma is_free_text_inv inp env :
  is_free_text (inp, env) = true ->
  exists prompt,
    chat_input inp = Some prompt /\ truthy prompt = true
    /\ run_button inp = false.
Proof.
  unfold is_free_text. simpl.
  destruct (chat_input inp) as [prompt|]; [|discriminate].
  intros H. apply andb_true_iff in H as [Ht Hb].
  apply negb_true_iff in Hb. eauto.
Qed.

Lemma session_free_text (steps : list (Input * Env)) (s : SessionState) :
  Forall (fun step => is_free_text step = true) steps ->
  messages (session s steps) = messages s ++ flat_map exchange steps.
Proof.
  revert s. induction steps as [|[inp env] steps IH]; intros s Hall.
  - simpl. now rewrite app_nil_r.
  - inversion Hall as [|? ? Hstep Hrest]; subst.
    destruct (is_free_text_inv _ _ Hstep) as (prompt & Hin & Ht & Hb).
    unfold session in *. cbn [fold_left flat_map]. rewrite IH by assumption.
    destruct (interact_free_text s inp env prompt Hin Ht Hb) as (-> & _).
    unfold exchange at 2. cbn [fst snd]. rewrite Hin.
    rewrite <- app_assoc. reflexivity.
Qed.

Lemma length_exchanges (steps : list (Input * Env)) :
  Forall (fun step => is_free_text step = true) steps ->
  length (flat_map exchange steps)
  = 2 * successful_sends steps + 1 * failed_sends steps.
Proof.
  induction steps as [|[inp env] steps IH]; intros Hall; [reflexivity|].
  inversion Hall as [|? ? Hstep Hrest]; subst.
  destruct (is_free_text_inv _ _ Hstep) as (prompt & Hin & Ht & Hb).
  specialize (IH Hrest).
  unfold successful_sends, failed_sends, send_succeeds in *.
  cbn [flat_map List.filter fst snd]. rewrite length_app, IH.
  unfold exchange. cbn [fst snd]. rewrite Hin.
  destruct (send_message env prompt); simpl; lia.
Qed.

(** C3. Along any sequence of free-text sends, each send adds to the end
    of the transcript the prompt as a user turn, followed by the reply
    as an assistant turn when the service answers, and nothing else: the
    transcript grows by two turns for each send the service answers and
    by one for each send that fails. *)
Theorem transcript_growth (steps : list (Input * Env)) (s : SessionState) :
  Forall (fun step => is_free_text step = true) steps ->
  messages (session s steps) = messages s ++ flat_map exchange steps
  /\ Forall
       (fun step =>
          exists prompt,
            chat_input (fst step) = Some prompt
            /\ match send_message (snd step) prompt with
               | Response text =>
                   exchange step = [{| role := user; content := prompt |};
                                    {| role := assistant; content := text |}]
               | SendFailed _ =>
                   exchange step = [{| role := user; content := prompt |}]
               end)
       steps
  /\ length (messages (session s steps))
     = length (messages s) + 2 * successful_sends steps + 1 * failed_sends steps.
Proof.
  intros Hall. split; [now apply session_free_text|]. split.
  - eapply Forall_impl; [exact Hall|].
    intros [inp env] Hstep.
    destruct (is_free_text_inv _ _ Hstep) as (prompt & Hin & _ & _).
    exists prompt. split; [exact Hin|].
    unfold exchange. cbn [fst snd]. rewrite Hin.
    now destruct (send_message env prompt).
  - rewrite session_free_text, length_app, length_exchanges by assumption.
    lia.
Qed.

Lemma transcript_growth_witness :
  Forall (fun step => is_free_text step = true)
    [free_text [] (lit "next") (Response (lit "Now add 5 + 3.")) (python [] None);
     free_text [] (lit "why?") (SendFailed service_down) (python [] None)]
  /\ messages (session tutor_session
       [free_text [] (lit "next") (Response (lit "Now add 5 + 3.")) (python [] None);
        free_text [] (lit "why?") (SendFailed service_down) (python [] None)])
     = messages tutor_session
       ++ [turn user "next"; turn assistant "Now add 5 + 3."; turn user "why?"]
  /\ length (messages (session tutor_session
       [free_text [] (lit "next") (Response (lit "Now add 5 + 3.")) (python [] None);
        free_text [] (lit "why?") (SendFailed service_down) (python [] None)]))
     = 1 + 2 * 1 + 1 * 1.
Proof.
  assert (H : Forall (fun step => is_free_text step = true)
    [free_text [] (lit "next") (Response (lit "Now add 5 + 3.")) (python [] None);
     free_text [] (lit "why?") (SendFailed service_down) (python [] None)]).
  { repeat constructor. }
  split; [exact H|].
  destruct (transcript_growth _ tutor_session H) as (Hm & _ & Hl).
  split; [exact Hm|exact Hl].
Defined.







(** C8. Drawing the chat twice in a row on the same transcript: both
    passes end normally, leave the session state as it is, select the
    same turns and draw the same elements. *)
Theorem chat_display_idempotent a :
  let first := chat_display a in
  let second := chat_display (snd first) in
  fst first = Return tt /\ fst second = Return tt
  /\ session_state (snd first) = session_state a
  /\ session_state (snd second) = session_state a
  /\ select (messages (session_state (snd first)))
     = select (messages (session_state a))
  /\ exists els,
      page (snd first) = page a ++ els
      /\ page (snd second) = page (snd first) ++ els.
Proof.
  intros first second. subst second first.
  rewrite !chat_display_drawn. simpl.
  repeat split. eexists. split; reflexivity.
Qed.

Lemma run_send_ext env env' r a :
  (forall p, send_message env p = send_message env' p) ->
  run_send env r a = run_send env' r a.
Proof. intros H. unfold run_send. now rewrite H. Qed.

Lemma conclude_ext env env' r a :
  (forall p, send_message env p = send_message env' p) ->
  conclude env r a = conclude env' r a.
Proof.
  intros H. unfold conclude, bind.
  destruct (show_result r a) as [[[]|e| |] a1]; try reflexivity.
  destruct (extend_last_content _ a1) as [[[]|e| |] a2]; try reflexivity.
  now apply run_send_ext.
Qed.

(** C9. When the submitted code raises, what it wrote before the error
    plays no part: two executions that raise the same exception and
    differ only in the text they wrote (and in whether they closed the
    buffer) give the same outcome of [run], the same page, the same
    transcript and the same prompt to the tutor.  When the exception is
    an [Exception] that formats without failing, the result is built
    from the exception alone: the captured text is empty, the displayed
    text is the error summary, the detail is the traceback. *)
Theorem partial_output_discarded env env' a t :
  raised (click_execution env a) = Some (Throws t) ->
  raised (click_execution env' a) = Some (Throws t) ->
  session_after (click_execution env a) = session_after (click_execution env' a) ->
  drew (click_execution env a) = drew (click_execution env' a) ->
  (forall p, send_message env p = send_message env' p) ->
  run env (current_code (session_state a)) (submitted a)
  = run env' (current_code (session_state a)) (submitted a)
  /\ run_button_handler env a = run_button_handler env' a
  /\ (exc_is_Exception (exception t) = true ->
      str_raises t = None -> format_exc_raises t = None ->
      fst (run env (current_code (session_state a)) (submitted a))
      = Return (on_error (exception t))
      /\ execution_result (on_error (exception t)) = []
      /\ result_display_content (on_error (exception t))
         = [COLLISION] ++ lit " " ++ exc_type_name (exception t)
           ++ lit ": " ++ exc_str (exception t)
      /\ error_details (on_error (exception t))
         = traceback_format_exc (exception t)).
Proof.
  intros H H' Hs Hd Hsend.
  assert (Hend : run_end (click_execution env a)
                 = run_end (click_execution env' a)).
  { unfold run_end. now rewrite H, H'. }
  assert (Hex : executed (submitted a) (click_execution env a)
                = executed (submitted a) (click_execution env' a)).
  { unfold executed. now rewrite Hs, Hd. }
  assert (Hrun : forall w,
    run w (current_code (session_state a)) (submitted a)
    = (run_end (click_execution w a),
       executed (submitted a) (click_execution w a))).
  { intros w. now rewrite run_spec. }
  split; [now rewrite !Hrun, Hend, Hex|]. split.
  - rewrite !run_button_handler_spec. cbv zeta. rewrite Hend, Hex.
    destruct (run_end (click_execution env' a)); try reflexivity.
    now apply conclude_ext.
  - intros He Hst Hf. rewrite Hrun. cbn [fst].
    rewrite (run_end_Exception _ t), handled_printable by assumption.
    repeat split.
Qed.

Lemma partial_output_discarded_witness :
  raised (click_execution
            (service (Response (lit "ok")) (python (lit "partial") (Some name_error)))
            (open_page tutor_session))
  = Some (Throws (plain name_error))
  /\ raised (click_execution
               (service (Response (lit "ok")) (python [] (Some name_error)))
               (open_page tutor_session))
     = Some (Throws (plain name_error))
  /\ run_button_handler
       (service (Response (lit "ok")) (python (lit "partial") (Some name_error)))
       (open_page tutor_session)
     = run_button_handler
         (service (Response (lit "ok")) (python [] (Some name_error)))
         (open_page tutor_session).
Proof.
  split; [reflexivity|]. split; [reflexivity|].
  exact (proj1 (proj2 (partial_output_discarded
    (service (Response (lit "ok")) (python (lit "partial") (Some name_error)))
    (service (Response (lit "ok")) (python [] (Some name_error)))
    (open_page tutor_session) (plain name_error)
    eq_refl eq_refl eq_refl eq_refl (fun _ => eq_refl)))).
Defined.

Lemma script_run_click env editor a :
  script (run_click editor) env a
  = run_button_handler env (at_click editor a).
Proof.
  unfold script. erewrite bind_Return by apply chat_display_drawn.
  reflexivity.
Qed.

(** C10. [run] turns into a result nothing but a normal end of the code
    or an exception of the [Exception] class.  An exception outside that
    class, raised by the submitted code, leaves [run], leaves the "Run
    Code" handler and ends the script run: the host gets it; the session
    is then as the code left it, with no result merged into the
    submission and nothing sent to the tutor. *)
Theorem only_Exception_is_captured env editor s t :
  raised (click_execution env (at_click editor (open_page s)))
  = Some (Throws t) ->
  exc_is_Exception (exception t) = false ->
  let a := at_click editor (open_page s) in
  let x := click_execution env a in
  run env editor (submitted a) = (Raise (exception t), executed (submitted a) x)
  /\ script (run_click editor) env (open_page s)
     = (Raise (exception t), executed (submitted a) x)
  /\ interact s (run_click editor, env) = executed (submitted a) x
  /\ (forall env' code a' r,
        fst (run env' code a') = Return r ->
        raised (exec env' code ∅ (session_state a')) = None
        \/ exists t',
            raised (exec env' code ∅ (session_state a')) = Some (Throws t')
            /\ exc_is_Exception (exception t') = true).
Proof.
  intros H He a x.
  assert (Hend : run_end x = Raise (exception t))
    by now apply run_end_BaseException.
  assert (Hscript : script (run_click editor) env (open_page s)
                    = (Raise (exception t), executed (submitted a) x)).
  { rewrite script_run_click, run_button_handler_spec. fold a. cbv zeta.
    fold x. now rewrite Hend. }
  split; [|split; [exact Hscript|split]].
  - rewrite run_spec. fold x in Hend.
    change (exec env editor ∅ (session_state (submitted a))) with x.
    now rewrite Hend.
  - unfold interact. now rewrite Hscript.
  - intros env' code a' r. rewrite run_spec. cbn [fst]. unfold run_end.
    destruct (raised (exec env' code ∅ (session_state a'))) as [[t'| |]|];
      try discriminate; [|now left].
    destruct (exc_is_Exception (exception t')) eqn:He'; [|discriminate].
    intros _. right. eauto.
Qed.

Lemma only_Exception_is_captured_witness :
  raised (click_execution
            (service (Response []) (python [] (Some system_exit)))
            (at_click (lit "exit(1)") (open_page tutor_session)))
  = Some (Throws (plain system_exit))
  /\ exc_is_Exception (exception (plain system_exit)) = false
  /\ fst (script (run_click (lit "exit(1)"))
            (service (Response []) (python [] (Some system_exit)))
            (open_page tutor_session))
     = Raise system_exit.
Proof.
  split; [reflexivity|]. split; [reflexivity|].
  exact (f_equal fst (proj1 (proj2 (only_Exception_is_captured
    (service (Response []) (python [] (Some system_exit)))
    (lit "exit(1)") tutor_session (plain system_exit) eq_refl eq_refl)))).
Defined.

(** C1.  The display compares [messages.index(...)] of the two selected
    turns, and [index] gives the position of the first turn equal to its
    argument.  After the prompt "next" was answered once and then sent a
    second time without an answer, the most recent user turn (position
    3) comes after the most recent assistant turn (position 2), so the
    positional rule shows both; the script finds the user turn's text at
    position 1 and draws the assistant turn alone. *)
Theorem repeated_prompt_not_displayed :
  let s := session tutor_session
             [free_text [] (lit "next") (Response (lit "Now add 5 + 3."))
                (python [] None);
              free_text [] (lit "next") (SendFailed service_down)
                (python [] None)] in
  messages s = [turn assistant "Use print to show a message.";
                turn user "next";
                turn assistant "Now add 5 + 3.";
                turn user "next"]
  /\ select (messages s)
     = (Some (turn assistant "Now add 5 + 3."), Some (turn user "next"))
  /\ last_position assistant (messages s) = Some 2
  /\ last_position user (messages s) = Some 3
  /\ list_index (turn user "next") (messages s) = Some 1
  /\ display_by_position (messages s)
     = [ChatMessage assistant (lit "Now add 5 + 3.");
        ChatMessage user (lit "next")]
  /\ chat_display (open_page s)
     = (Return tt,
        drawn (open_page s) [ChatMessage assistant (lit "Now add 5 + 3.")]).
Proof. vm_compute. repeat split. Qed.

(** The same confusion the other way round: when the tutor repeats a
    message, the user turn that precedes the latest assistant turn is
    drawn after it. *)
Example repeated_reply_shows_older_user_turn :
  let ms := [turn assistant "Try again."; turn user "ok";
             turn assistant "Try again."] in
  display_by_position ms = [ChatMessage assistant (lit "Try again.")]
  /\ rendered ms = [ChatMessage assistant (lit "Try again.");
                    ChatMessage user (lit "ok")].
Proof. vm_compute. split; reflexivity. Qed.

(** The two transcripts of the specification, with distinct turns. *)
Example select_latest_assistant_only :
  let ms := [turn assistant "A1"; turn user "U1"; turn assistant "A2"] in
  select ms = (Some (turn assistant "A2"), Some (turn user "U1"))
  /\ rendered ms = [ChatMessage assistant (lit "A2")].
Proof. vm_compute. split; reflexivity. Qed.

Example select_assistant_then_user :
  let ms := [turn assistant "A1"; turn user "U1"] in
  rendered ms = [ChatMessage assistant (lit "A1"); ChatMessage user (lit "U1")].
Proof. vm_compute. reflexivity. Qed.

(** Printing ["x"]: the captured text is ["x"]. *)
Example run_prints_x :
  fst (run (service (Response []) (python (lit "x" ++ [NL]) None))
         (lit "print('x')") (open_page tutor_session))
  = Return (on_success (lit "x" ++ [NL]))
  /\ execution_result (on_success (lit "x" ++ [NL])) = lit "x".
Proof. vm_compute. split; reflexivity. Qed.

(** * The rest of the script *)

(** ** Invariants kept by computations *)

Section Invariants.
Variable I : App -> Prop.

Lemma Keeps_ret {A} (x : A) : Keeps I (ret x).
Proof. intros a Ha. exact Ha. Qed.

Lemma Keeps_raise {A} e : Keeps I (@raise A e).
Proof. intros a Ha. exact Ha. Qed.

Lemma Keeps_st_rerun : Keeps I st_rerun.
Proof. intros a Ha. exact Ha. Qed.

Lemma Keeps_gets {A} (f : SessionState -> A) : Keeps I (gets f).
Proof. intros a Ha. exact Ha. Qed.

Lemma Keeps_bind {A B} (m : Script A) (k : A -> Script B) :
  Keeps I m -> (forall x, Keeps I (k x)) -> Keeps I (bind m k).
Proof.
  intros Hm Hk a Ha. specialize (Hm a Ha). unfold bind.
  destruct (m a) as [[x|e| |] a1]; simpl in *; auto.
  now apply Hk.
Qed.

Lemma Keeps_try_except {A} (body : Script A) handler :
  Keeps I body -> (forall e, Keeps I (handler e)) ->
  Keeps I (try_except body handler).
Proof.
  intros Hb Hh a Ha. specialize (Hb a Ha). unfold try_except.
  destruct (body a) as [[x|e| |] a1]; simpl in *; auto.
  destruct (exc_is_Exception e); simpl; auto. now apply Hh.
Qed.

(** A computation that leaves the state as it is keeps [I]. *)
Lemma Keeps_pure {A} (m : Script A) :
  (forall a, snd (m a) = a) -> Keeps I m.
Proof. intros H a Ha. now rewrite H. Qed.
End Invariants.

(** ** The chat handle *)

Lemma Keeps_chat_draw c el : Keeps (same_chat c) (draw el).
Proof. intros a Ha. exact Ha. Qed.

Lemma Keeps_chat_messages_append c t : Keeps (same_chat c) (messages_append t).
Proof. intros a Ha. exact Ha. Qed.

Lemma Keeps_chat_assign c code : Keeps (same_chat c) (assign_current_code code).
Proof. intros a Ha. exact Ha. Qed.

Lemma Keeps_chat_extend c suffix : Keeps (same_chat c) (extend_last_content suffix).
Proof.
  intros a Ha. unfold extend_last_content.
  destruct (last (messages (session_state a))); exact Ha.
Qed.

Lemma Keeps_chat_send_body c env prompt :
  Keeps (same_chat c)
    (match send_message env prompt with
     | Response text =>
         messages_append {| role := assistant; content := text |};; st_rerun
     | SendFailed e => raise e
     end).
Proof.
  destruct (send_message env prompt).
  - apply Keeps_bind; [apply Keeps_chat_messages_append|].
    intros _. apply Keeps_st_rerun.
  - apply Keeps_raise.
Qed.

Lemma Keeps_chat_chat_input_handler c env prompt :
  Keeps (same_chat c) (chat_input_handler env prompt).
Proof.
  apply Keeps_bind; [apply Keeps_chat_messages_append|]. intros _.
  apply Keeps_try_except; [apply Keeps_chat_send_body|].
  intros e. apply Keeps_chat_draw.
Qed.

Lemma Keeps_chat_run_send c env r : Keeps (same_chat c) (run_send env r).
Proof.
  apply Keeps_bind; [apply Keeps_gets|].
  intros [h|]; [|apply Keeps_chat_draw].
  apply Keeps_try_except; [apply Keeps_chat_send_body|].
  intros e. apply Keeps_chat_draw.
Qed.

Lemma Keeps_chat_conclude c env r : Keeps (same_chat c) (conclude env r).
Proof.
  apply Keeps_bind.
  { intros a Ha. now rewrite show_result_drawn. }
  intros _.
  apply Keeps_bind; [apply Keeps_chat_extend|]. intros _.
  apply Keeps_chat_run_send.
Qed.

Lemma Keeps_chat_run_button_handler c env :
  leaves_chat env -> Keeps (same_chat c) (run_button_handler env).
Proof.
  intros Hl a Ha. rewrite run_button_handler_spec.
  assert (H2 : same_chat c (executed (submitted a) (click_execution env a))).
  { unfold same_chat, click_execution. cbn [executed session_state].
    rewrite Hl. exact Ha. }
  destruct (run_end (click_execution env a)); try exact H2.
  now apply Keeps_chat_conclude.
Qed.

Lemma Keeps_chat_script c inp env :
  leaves_chat env -> Keeps (same_chat c) (script inp env).
Proof.
  intros Hl. apply Keeps_bind.
  { intros a Ha. now rewrite chat_display_drawn. }
  intros _. apply Keeps_bind.
  { destruct (chat_input inp) as [prompt|]; [|apply Keeps_ret].
    destruct (truthy prompt);
      [apply Keeps_chat_chat_input_handler|apply Keeps_ret]. }
  intros _.
  apply Keeps_bind; [apply Keeps_chat_assign|]. intros _.
  destruct (run_button inp);
    [now apply Keeps_chat_run_button_handler|apply Keeps_ret].
Qed.

(** ** Start-up *)

Lemma configuration_store boot store els ph :
  configuration boot store = (els, ph) ->
  match ph with
  | Go _ => els = [] /\ key_present boot = true /\ configure boot = None
  | Halt store' => store' = store /\ exists body, els = [StError body]
  | Escape e store' => store' = store /\ els = []
  end.
Proof.
  unfold configuration. destruct (key_present boot); simpl.
  - destruct (configure boot) as [e|].
    + destruct (exc_is_Exception e); intros [= <- <-]; eauto.
    + intros [= <- <-]. auto.
  - intros [= <- <-]. eauto.
Qed.

Lemma start_failure_store e store els ph :
  start_failure e store = (els, ph) ->
  match ph with
  | Go _ => False
  | Halt store' => store' = store /\ exists body, els = [StError body]
  | Escape e' store' => store' = store /\ els = [] /\ e' = e
  end.
Proof.
  unfold start_failure. destruct (exc_is_Exception e); intros [= <- <-]; eauto.
Qed.

Lemma startup_Halt boot env store els store' :
  startup boot env store = (els, Halt store') ->
  messages_key store' = messages_key store
  /\ current_code_key store' = current_code_key store
  /\ (chat_key store' = chat_key store
      \/ chat_key store = None /\ chat_key store' = Some GenerativeChat)
  /\ (exists body, els = [StError body]).
Proof.
  intros H. unfold startup in H.
  destruct (configuration boot store) as [els0 ph0] eqn:Hc.
  apply configuration_store in Hc.
  destruct ph0 as [[]|st0|e0 st0]; [|injection H as <- <-|discriminate].
  - destruct Hc as (-> & _ & _).
    unfold initialise in H.
    destruct (chat_key store) as [c|] eqn:Hchat; [discriminate|].
    destruct (start_chat boot) as [e|].
    + destruct (start_failure e store) as [els1 ph1] eqn:Hf.
      apply start_failure_store in Hf.
      destruct ph1 as [x|st1|e1 st1]; [contradiction| |discriminate].
      injection H as <- <-. destruct Hf as (-> & body & ->).
      rewrite Hchat. repeat split; eauto.
    + destruct (send_message env first_user_instruction) as [text|e];
        [discriminate|].
      match type of H with context [start_failure e ?st] =>
        destruct (start_failure e st) as [els1 ph1] eqn:Hf end.
      apply start_failure_store in Hf.
      destruct ph1 as [x|st1|e1 st1]; [contradiction| |discriminate].
      injection H as <- <-. destruct Hf as (-> & body & ->).
      simpl. repeat split; eauto.
  - destruct Hc as (-> & body & ->). repeat split; eauto.
Qed.

(** X1.  When start-up stops the run, the session keeps its transcript and
    its editor text, at most the chat handle was added, the page holds
    one error message, and the two columns are not run: the run ends
    there whatever the widgets hold. *)
Theorem startup_stop_preserves boot env store els store' :
  startup boot env store = (els, Halt store') ->
  messages_key store' = messages_key store
  /\ current_code_key store' = current_code_key store
  /\ (chat_key store' = chat_key store
      \/ chat_key store = None /\ chat_key store' = Some GenerativeChat)
  /\ (exists body, els = [StError body])
  /\ forall inp, main boot inp env store = (StopRequested, store', els).
Proof.
  intros H.
  destruct (startup_Halt _ _ _ _ _ H) as (Hm & Hcode & Hchat & Hels).
  repeat split; try assumption.
  intros inp. unfold main. now rewrite H.
Qed.

Lemma startup_stop_preserves_witness :
  startup good_boot (service (SendFailed service_down) (python [] None))
    empty_store
  = ([StError ([POLICE_LIGHT] ++ lit " Failed to start chat. Error: "
               ++ exc_str service_down ++ [NL]
               ++ traceback_format_exc service_down)],
     Halt {| chat_key := Some GenerativeChat; messages_key := None;
             current_code_key := None |})
  /\ main good_boot (run_click (lit "print(1)"))
       (service (SendFailed service_down) (python [] None)) empty_store
     = (StopRequested,
        {| chat_key := Some GenerativeChat; messages_key := None;
           current_code_key := None |},
        [StError ([POLICE_LIGHT] ++ lit " Failed to start chat. Error: "
                  ++ exc_str service_down ++ [NL]
                  ++ traceback_format_exc service_down)]).
Proof.
  split; [reflexivity|].
  exact (proj2 (proj2 (proj2 (proj2
    (startup_stop_preserves good_boot
       (service (SendFailed service_down) (python [] None))
       empty_store _ _ eq_refl)))) (run_click (lit "print(1)"))).
Defined.

(** X2.  Without an API key (unset or empty) the run stops on the error
    message: no configuration, no chat session, no call to the service,
    nothing stored, whatever the widgets hold. *)
Theorem no_api_key_halts boot inp env store :
  key_present boot = false ->
  main boot inp env store = (StopRequested, store, [StError NO_API_KEY]).
Proof.
  intros H. unfold main, startup, configuration. now rewrite H.
Qed.

Lemma no_api_key_halts_witness :
  key_present {| GOOGLE_API_KEY := Some []; configure := Some system_exit;
                 start_chat := None |} = false
  /\ main {| GOOGLE_API_KEY := Some []; configure := Some system_exit;
             start_chat := None |}
       (run_click (lit "print(1)"))
       (service (Response (lit "hi")) (python [] None)) empty_store
     = (StopRequested, empty_store, [StError NO_API_KEY]).
Proof.
  split; [reflexivity|].
  exact (no_api_key_halts
           {| GOOGLE_API_KEY := Some []; configure := Some system_exit;
              start_chat := None |}
           (run_click (lit "print(1)"))
           (service (Response (lit "hi")) (python [] None)) empty_store
           eq_refl).
Defined.

(** X3.  The first run of a browser session whose start-up goes through: the
    transcript is the tutor's answer to the first instruction, alone
    (the instruction itself is not in it), and the editor holds
    [print("Hello, Learner!")]; the page shows that answer. *)
Theorem first_run_initialises boot env text inp :
  key_present boot = true -> configure boot = None -> start_chat boot = None ->
  send_message env first_user_instruction = Response text ->
  startup boot env empty_store
  = ([], Go {| chat := Some GenerativeChat;
               messages := [{| role := assistant; content := text |}];
               current_code := HELLO_LEARNER |})
  /\ main boot (idle inp) env empty_store
     = (Completed,
        {| chat_key := Some GenerativeChat;
           messages_key := Some [{| role := assistant; content := text |}];
           current_code_key := Some (code_input_area inp) |},
        [ChatMessage assistant text]).
Proof.
  intros Hk Hc Hs Hr.
  assert (Hst : startup boot env empty_store
    = ([], Go {| chat := Some GenerativeChat;
                 messages := [{| role := assistant; content := text |}];
                 current_code := HELLO_LEARNER |})).
  { unfold startup, configuration, initialise. rewrite Hk, Hc. simpl.
    now rewrite Hs, Hr. }
  split; [exact Hst|].
  unfold main. rewrite Hst, script_idle. reflexivity.
Qed.

Lemma first_run_initialises_witness :
  key_present good_boot = true /\ configure good_boot = None
  /\ start_chat good_boot = None
  /\ main good_boot (idle (run_click HELLO_LEARNER))
       (service (Response (lit "Welcome!")) (python [] None)) empty_store
     = (Completed,
        {| chat_key := Some GenerativeChat;
           messages_key := Some [turn assistant "Welcome!"];
           current_code_key := Some HELLO_LEARNER |},
        [ChatMessage assistant (lit "Welcome!")]).
Proof.
  repeat (split; [reflexivity|]).
  exact (proj2 (first_run_initialises good_boot
    (service (Response (lit "Welcome!")) (python [] None))
    (lit "Welcome!") (run_click HELLO_LEARNER)
    eq_refl eq_refl eq_refl eq_refl)).
Defined.

(** X4.  When the first send fails, the chat handle is already stored and
    the run stops.  The next run finds the handle, does not send the
    first instruction again (whatever the service would answer), and
    goes on with an empty transcript and an empty editor: the page shows
    no message. *)
Theorem failed_first_send_not_retried boot env e boot' env' inp :
  key_present boot = true -> configure boot = None -> start_chat boot = None ->
  send_message env first_user_instruction = SendFailed e ->
  exc_is_Exception e = true ->
  key_present boot' = true -> configure boot' = None ->
  let store' := {| chat_key := Some GenerativeChat; messages_key := None;
                   current_code_key := None |} in
  stored (main boot inp env empty_store) = store'
  /\ ended (main boot inp env empty_store) = StopRequested
  /\ startup boot' env' store'
     = ([], Go {| chat := Some GenerativeChat; messages := [];
                  current_code := [] |})
  /\ main boot' (idle inp) env' store'
     = (Completed,
        {| chat_key := Some GenerativeChat; messages_key := Some [];
           current_code_key := Some (code_input_area inp) |},
        []).
Proof.
  intros Hk Hc Hs Hr He Hk' Hc' store'.
  assert (H1 : main boot inp env empty_store
               = (StopRequested, store',
                  [StError ([POLICE_LIGHT] ++ lit " Failed to start chat. Error: "
                            ++ exc_str e ++ [NL] ++ traceback_format_exc e)])).
  { unfold main, startup, configuration, initialise, start_failure.
    rewrite Hk, Hc. simpl. now rewrite Hs, Hr, He. }
  assert (H2 : startup boot' env' store'
               = ([], Go {| chat := Some GenerativeChat; messages := [];
                            current_code := [] |})).
  { unfold startup, configuration, initialise. now rewrite Hk', Hc'. }
  rewrite H1. repeat split; [exact H2|].
  unfold main. rewrite H2, script_idle. reflexivity.
Qed.

Lemma failed_first_send_not_retried_witness :
  key_present good_boot = true /\ configure good_boot = None
  /\ start_chat good_boot = None
  /\ exc_is_Exception service_down = true
  /\ main good_boot (idle (run_click []))
       (service (Response (lit "Welcome!")) (python [] None))
       {| chat_key := Some GenerativeChat; messages_key := None;
          current_code_key := None |}
     = (Completed,
        {| chat_key := Some GenerativeChat; messages_key := Some [];
           current_code_key := Some [] |},
        []).
Proof.
  repeat (split; [reflexivity|]).
  exact (proj2 (proj2 (proj2 (failed_first_send_not_retried good_boot
    (service (SendFailed service_down) (python [] None)) service_down
    good_boot (service (Response (lit "Welcome!")) (python [] None))
    (run_click [])
    eq_refl eq_refl eq_refl eq_refl eq_refl eq_refl eq_refl)))).
Defined.

(** ** Visits *)


Lemma initialise_present boot env store :
  is_Some (chat_key store) -> initialise boot env store = ([], Go store).
Proof. intros [c Hc]. unfold initialise. now rewrite Hc. Qed.

(** With the chat handle in the store, start-up either goes on with the
    stored session or ends the run with the store as it is; it does not
    call the service. *)
Lemma startup_initialised boot env store els ph :
  is_Some (chat_key store) ->
  startup boot env store = (els, ph) ->
  match ph with
  | Go s => s = ensure_defaults store /\ els = []
  | Halt store' => store' = store
  | Escape _ store' => store' = store
  end.
Proof.
  intros Hc. unfold startup.
  destruct (configuration boot store) as [els0 ph0] eqn:Hconf.
  apply configuration_store in Hconf.
  destruct ph0 as [[]|st0|e0 st0].
  - rewrite (initialise_present _ _ _ Hc). destruct Hconf as (-> & _).
    intros [= <- <-]. auto.
  - intros [= <- <-]. tauto.
  - intros [= <- <-]. tauto.
Qed.


Lemma main_holds boot inp env store c ms :
  leaves_transcript env -> leaves_chat env ->
  holds c ms store ->
  exists suffix, holds c (ms ++ suffix) (stored (main boot inp env store)).
Proof.
  intros Hlt Hlc [Hc Hm]. unfold main.
  destruct (startup boot env store) as [els ph] eqn:Hst.
  apply startup_initialised in Hst; [|rewrite Hc; eauto].
  destruct ph as [s|st|e st].
  - destruct Hst as [-> ->].
    set (a0 := {| session_state := ensure_defaults store; page := [];
                  journal := [] |}).
    pose proof (Tracked_script inp env Hlt a0) as (j & _ & Hev & _).
    pose proof (Keeps_chat_script (Some c) inp env Hlc a0 Hc) as Hchat.
    destruct (script inp env a0) as [o a]. simpl in *.
    apply evolves_prefix in Hev as [suffix Hsfx].
    exists suffix. unfold holds, stored. simpl.
    rewrite Hsfx. unfold same_chat in Hchat. rewrite Hchat, Hm. auto.
  - subst st. exists []. rewrite app_nil_r. now split.
  - subst st. exists []. rewrite app_nil_r. now split.
Qed.

Lemma visit_holds store boot inp env c ms :
  leaves_transcript env -> leaves_chat env ->
  holds c ms store ->
  exists suffix, holds c (ms ++ suffix) (fst (visit store (boot, inp, env))).
Proof.
  intros Hlt Hlc H. unfold visit.
  destruct (main_holds boot inp env store c ms Hlt Hlc H) as [sfx1 H1].
  destruct (main boot inp env store) as [[en store1] els1].
  unfold stored in H1. simpl in H1.
  destruct en; try (exists sfx1; exact H1).
  destruct (main_holds boot (idle inp) env store1 c _ Hlt Hlc H1) as [sfx2 H2].
  destruct (main boot (idle inp) env store1) as [[en2 store2] els2].
  exists (sfx1 ++ sfx2). rewrite app_assoc. exact H2.
Qed.

(** X5.  Once the session holds a chat handle, no sequence of visits
    whose submitted code leaves the transcript and the handle alone
    replaces or drops the handle, and the transcript only grows at its
    end: the turns it held (none when it had no transcript yet) stay
    where they are, with their role and content as they are at the end
    of the visit that added them. *)
Theorem browse_keeps_session (steps : list (Boot * Input * Env)) store c :
  chat_key store = Some c ->
  Forall (fun step => leaves_transcript (snd step) /\ leaves_chat (snd step))
    steps ->
  chat_key (browse store steps) = Some c
  /\ exists suffix,
      default [] (messages_key (browse store steps))
      = default [] (messages_key store) ++ suffix.
Proof.
  intros Hc Hall.
  assert (H : holds c (default [] (messages_key store)) store) by now split.
  clear Hc. revert H. generalize (default [] (messages_key store)) as ms.
  revert store. induction Hall as [|[[boot inp] env] steps [Hlt Hlc] _ IH];
    intros store ms H.
  - destruct H as [Hc Hm]. split; [exact Hc|].
    exists []. now rewrite app_nil_r.
  - unfold browse. cbn [fold_left].
    destruct (visit_holds store boot inp env c ms Hlt Hlc H) as [sfx1 H1].
    destruct (IH _ _ H1) as [Hc [sfx2 Hm]].
    split; [exact Hc|]. exists (sfx1 ++ sfx2). now rewrite app_assoc.
Qed.

Lemma browse_keeps_session_witness :
  chat_key {| chat_key := Some GenerativeChat; messages_key := None;
              current_code_key := None |} = Some GenerativeChat
  /\ Forall (fun step => leaves_transcript (snd step) /\ leaves_chat (snd step))
       [(good_boot, run_click (lit "x"),
         service (Response (lit "ok")) (python [] (Some name_error)))]
  /\ chat_key (browse {| chat_key := Some GenerativeChat; messages_key := None;
                         current_code_key := None |}
       [(good_boot, run_click (lit "x"),
         service (Response (lit "ok")) (python [] (Some name_error)))])
     = Some GenerativeChat.
Proof.
  assert (H : Forall
    (fun step => leaves_transcript (snd step) /\ leaves_chat (snd step))
    [(good_boot, run_click (lit "x"),
      service (Response (lit "ok")) (python [] (Some name_error)))]).
  { constructor; [|constructor]. split; intros code ns s; reflexivity. }
  split; [reflexivity|]. split; [exact H|].
  exact (proj1 (browse_keeps_session
    [(good_boot, run_click (lit "x"),
      service (Response (lit "ok")) (python [] (Some name_error)))]
    {| chat_key := Some GenerativeChat; messages_key := None;
       current_code_key := None |} GenerativeChat eq_refl H)).
Defined.

(** ** The handlers, case by case *)

Lemma chat_input_handler_cases env prompt a :
  chat_input_handler env prompt a
  = sent (send_message env prompt) chat_error_body
      (appended {| role := user; content := prompt |} a).
Proof.
  unfold chat_input_handler. erewrite bind_Return by reflexivity.
  unfold chat_send, try_except, sent.
  destruct (send_message env prompt) as [text|e]; [reflexivity|].
  simpl. destruct (exc_is_Exception e); reflexivity.
Qed.

Lemma run_send_cases env r a :
  run_send env r a
  = match chat (session_state a) with
    | Some _ => sent (send_message env (ai_prompt r)) run_error_body a
    | None => (Return tt, drawn a [UNINITIALISED])
    end.
Proof.
  unfold run_send, bind, gets.
  destruct (chat (session_state a)); [|reflexivity].
  unfold try_except, sent.
  destruct (send_message env (ai_prompt r)) as [text|e]; [reflexivity|].
  simpl. destruct (exc_is_Exception e); reflexivity.
Qed.

(** ** Every reply follows a user turn *)

Lemma replies_follow_users_app ms (u : Turn) l :
  replies_follow_users ms = true -> role u = user ->
  replies_follow_users (u :: l) = true ->
  replies_follow_users (ms ++ u :: l) = true.
Proof.
  intros Hms Hu Hl. induction ms as [|t ms IH]; [exact Hl|].
  cbn [app]. destruct ms as [|t' ms].
  - cbn [app replies_follow_users] in *. rewrite Hl.
    unfold has_role at 2. rewrite Hu. simpl.
    now rewrite andb_false_r.
  - cbn [app replies_follow_users] in *.
    apply andb_true_iff in Hms as [-> Hms]. simpl. now apply IH.
Qed.

Lemma replies_follow_users_1 (u : Turn) : replies_follow_users [u] = true.
Proof. reflexivity. Qed.

Lemma replies_follow_users_2 (u t : Turn) :
  role u = user -> replies_follow_users [u; t] = true.
Proof.
  intros Hu. cbn [replies_follow_users]. unfold has_role. rewrite Hu. reflexivity.
Qed.

(** The send of a handler keeps the invariant when it starts on a
    transcript that ends with a user turn. *)
Lemma conversational_sent reply body a ms (u : Turn) :
  replies_follow_users ms = true -> role u = user ->
  messages (session_state a) = ms ++ [u] ->
  conversational (snd (sent reply body a)).
Proof.
  intros Hms Hu Ha. unfold sent, conversational.
  destruct reply as [text|e].
  - simpl. rewrite Ha, <- app_assoc. simpl.
    apply replies_follow_users_app; auto using replies_follow_users_2.
  - destruct (exc_is_Exception e); simpl; rewrite Ha;
      apply replies_follow_users_app; auto.
Qed.

Lemma Keeps_conversational_chat_input_handler env prompt :
  Keeps conversational (chat_input_handler env prompt).
Proof.
  intros a Ha. rewrite chat_input_handler_cases.
  eapply conversational_sent; [exact Ha| |reflexivity]. reflexivity.
Qed.

Lemma Keeps_conversational_run_button_handler env :
  leaves_transcript env -> Keeps conversational (run_button_handler env).
Proof.
  intros Hl a Ha. rewrite run_button_handler_spec.
  set (a2 := executed (submitted a) (click_execution env a)).
  assert (Hm : messages (session_state a2)
               = messages (session_state a)
                 ++ [{| role := user;
                        content := user_submission_content
                                     (current_code (session_state a)) |}]).
  { unfold a2, click_execution. cbn [executed session_state]. now rewrite Hl. }
  assert (H2 : conversational a2).
  { unfold conversational. rewrite Hm.
    apply replies_follow_users_app; auto. }
  destruct (run_end (click_execution env a)) as [r|e| |]; try exact H2.
  rewrite conclude_merged by (rewrite Hm; now destruct (messages (session_state a))).
  destruct (merged_snoc a2 r _ _ Hm) as [Hms _].
  rewrite run_send_cases.
  destruct (chat (session_state (merged a2 r))).
  - eapply conversational_sent; [exact Ha| |exact Hms]. reflexivity.
  - unfold conversational. cbn [drawn session_state snd]. rewrite Hms.
    apply replies_follow_users_app; auto.
Qed.

Lemma Keeps_conversational_script inp env :
  leaves_transcript env -> Keeps conversational (script inp env).
Proof.
  intros Hl. apply Keeps_bind.
  { intros a Ha. now rewrite chat_display_drawn. }
  intros _. apply Keeps_bind.
  { destruct (chat_input inp) as [prompt|]; [|apply Keeps_ret].
    destruct (truthy prompt);
      [apply Keeps_conversational_chat_input_handler|apply Keeps_ret]. }
  intros _. apply Keeps_bind; [intros a Ha; exact Ha|]. intros _.
  destruct (run_button inp);
    [now apply Keeps_conversational_run_button_handler|apply Keeps_ret].
Qed.

Lemma main_conversational boot inp env store :
  leaves_transcript env ->
  replies_follow_users (default [] (messages_key store)) = true ->
  replies_follow_users
    (default [] (messages_key (stored (main boot inp env store)))) = true.
Proof.
  intros Hl H. unfold main.
  destruct (startup boot env store) as [els ph] eqn:Hst.
  destruct ph as [s|st|e st]; unfold stored; simpl.
  - assert (Hs : replies_follow_users (messages s) = true).
    { unfold startup in Hst.
      destruct (configuration boot store) as [els0 [[]|?|? ?]];
        try discriminate.
      unfold initialise in Hst.
      destruct (chat_key store).
      - injection Hst as <- <-. exact H.
      - destruct (start_chat boot) as [e|].
        + unfold start_failure in Hst.
          destruct (exc_is_Exception e); discriminate.
        + destruct (send_message env first_user_instruction) as [text|e].
          * injection Hst as <- <-. reflexivity.
          * unfold start_failure in Hst.
            destruct (exc_is_Exception e); discriminate. }
    pose proof (Keeps_conversational_script inp env Hl
                  {| session_state := s; page := els; journal := [] |} Hs) as Hk.
    destruct (script inp env _) as [o a]. exact Hk.
  - apply startup_Halt in Hst as (-> & _). exact H.
  - unfold startup in Hst.
    destruct (configuration boot store) as [els0 ph0] eqn:Hc.
    apply configuration_store in Hc.
    destruct ph0 as [[]|?|? ?]; try discriminate.
    + unfold initialise in Hst.
      destruct (chat_key store); [discriminate|].
      destruct (start_chat boot) as [e0|].
      * unfold start_failure in Hst.
        destruct (exc_is_Exception e0); [discriminate|].
        injection Hst as <- <- <-. exact H.
      * destruct (send_message env first_user_instruction) as [text|e0];
          [discriminate|].
        unfold start_failure in Hst.
        destruct (exc_is_Exception e0); [discriminate|].
        injection Hst as <- <- <-. exact H.
    + destruct Hc as [-> ->]. injection Hst as <- <- <-. exact H.
Qed.

Lemma visit_conversational store boot inp env :
  leaves_transcript env ->
  replies_follow_users (default [] (messages_key store)) = true ->
  replies_follow_users
    (default [] (messages_key (fst (visit store (boot, inp, env))))) = true.
Proof.
  intros Hl H. unfold visit.
  pose proof (main_conversational boot inp env store Hl H) as H1.
  destruct (main boot inp env store) as [[en store1] els1].
  unfold stored in H1. simpl in H1.
  destruct en; try exact H1.
  pose proof (main_conversational boot (idle inp) env store1 Hl H1) as H2.
  destruct (main boot (idle inp) env store1) as [[en2 store2] els2].
  exact H2.
Qed.

(** X6.  In every transcript a browser session reaches by visits whose
    submitted code leaves the transcript alone, no assistant turn comes
    right after another one: whatever the widgets hold and the service
    answers, each reply of the tutor after the first message answers the
    user turn right before it. *)
Theorem replies_always_follow_users (steps : list (Boot * Input * Env)) :
  Forall (fun step => leaves_transcript (snd step)) steps ->
  replies_follow_users (default [] (messages_key (browse empty_store steps)))
  = true.
Proof.
  intros Hall.
  assert (H : forall store,
    replies_follow_users (default [] (messages_key store)) = true ->
    replies_follow_users (default [] (messages_key (browse store steps)))
    = true).
  { induction Hall as [|[[boot inp] env] steps Hl _ IH]; intros store Hs;
      [exact Hs|].
    unfold browse. cbn [fold_left]. apply IH.
    now apply visit_conversational. }
  now apply H.
Qed.

Lemma replies_always_follow_users_witness :
  Forall (fun step => leaves_transcript (snd step))
    [(good_boot, run_click (lit "print(1)"),
      service (Response (lit "Welcome!")) (python (lit "1") None));
     (good_boot, run_click (lit "print(1)"),
      service (Response (lit "Nice!")) (python (lit "1") None))]
  /\ replies_follow_users (default [] (messages_key (browse empty_store
       [(good_boot, run_click (lit "print(1)"),
         service (Response (lit "Welcome!")) (python (lit "1") None));
        (good_boot, run_click (lit "print(1)"),
         service (Response (lit "Nice!")) (python (lit "1") None))])))
     = true.
Proof.
  assert (H : Forall (fun step => leaves_transcript (snd step))
    [(good_boot, run_click (lit "print(1)"),
      service (Response (lit "Welcome!")) (python (lit "1") None));
     (good_boot, run_click (lit "print(1)"),
      service (Response (lit "Nice!")) (python (lit "1") None))]).
  { repeat constructor. }
  split; [exact H|].
  exact (replies_always_follow_users _ H).
Defined.

(** ** The page never reports a missing chat session *)
















(** ** Submitting code *)



(** X9.  A run in which the chat input is not submitted, or is submitted
    empty, and the button is not pressed: the chat is redrawn, the
    editor's text is stored, and nothing else happens; the transcript is
    as it was and neither the service nor the interpreter is called
    (the result is the same with any of them). *)
Theorem untriggered_run_is_idle inp env env' a :
  no_trigger inp = true ->
  script inp env a
  = (Return tt,
     {| session_state := set_current_code (code_input_area inp) (session_state a);
        page := page a ++ rendered (messages (session_state a));
        journal := journal a |})
  /\ script inp env a = script inp env' a.
Proof.
  intros H. unfold no_trigger in H.
  apply andb_true_iff in H as [Hc Hb].
  apply negb_true_iff in Hc, Hb.
  assert (Hs : forall w, script inp w a
    = (Return tt,
       {| session_state := set_current_code (code_input_area inp) (session_state a);
          page := page a ++ rendered (messages (session_state a));
          journal := journal a |})).
  { intros w. unfold script.
    erewrite bind_Return by apply chat_display_drawn.
    rewrite Hb. destruct (chat_input inp) as [prompt|]; simpl in Hc.
    - rewrite Hc. reflexivity.
    - reflexivity. }
  split; [apply Hs|]. now rewrite !Hs.
Qed.

Lemma untriggered_run_is_idle_witness :
  no_trigger {| chat_input := Some []; code_input_area := lit "x = 1";
                run_button := false |} = true
  /\ script {| chat_input := Some []; code_input_area := lit "x = 1";
               run_button := false |}
       (service (Response (lit "hi")) (python [] None))
       (open_page tutor_session)
     = script {| chat_input := Some []; code_input_area := lit "x = 1";
                 run_button := false |}
         (service (SendFailed service_down) python_reads_x)
         (open_page tutor_session).
Proof.
  split; [reflexivity|].
  exact (proj2 (untriggered_run_is_idle
    {| chat_input := Some []; code_input_area := lit "x = 1";
       run_button := false |}
    (service (Response (lit "hi")) (python [] None))
    (service (SendFailed service_down) python_reads_x)
    (open_page tutor_session) eq_refl)).
Defined.

(** ** What the chat display selects and draws *)

Lemma last_position_None r (ms : list Turn) :
  last_position r ms = None -> forall t, t ∈ ms -> role t <> r.
Proof.
  induction ms as [|t0 ms IH]; intros H t Hin; [inversion Hin|].
  simpl in H. destruct (last_position r ms) as [k|]; [discriminate|].
  case_bool_decide; [discriminate|].
  apply elem_of_cons in Hin as [->|Hin]; [assumption|now apply IH].
Qed.

Lemma last_position_later r (ms : list Turn) i :
  last_position r ms = Some i ->
  forall j t, i < j -> ms !! j = Some t -> role t <> r.
Proof.
  revert i. induction ms as [|t0 ms IH]; intros i H j t Hlt Hj;
    [discriminate|].
  simpl in H. destruct (last_position r ms) as [k|] eqn:Hk.
  - injection H as <-. destruct j as [|j]; [lia|]. simpl in Hj.
    eapply (IH k); [reflexivity| |exact Hj]. lia.
  - case_bool_decide; [|discriminate]. injection H as <-.
    destruct j as [|j]; [lia|]. simpl in Hj.
    eapply last_position_None; [exact Hk|].
    apply list_elem_of_lookup. eauto.
Qed.

(** X10.  The backward scan selects, for each role, the turn at the last
    position of the transcript that holds a turn of that role, and no
    turn when the transcript has none of that role; repeated turns make
    no difference to the selection. *)
Theorem select_most_recent (ms : list Turn) :
  select ms = (last_position assistant ms ≫= (ms !!.),
               last_position user ms ≫= (ms !!.))
  /\ forall r,
      match last_position r ms with
      | Some i =>
          (exists t, ms !! i = Some t /\ role t = r)
          /\ forall j t, i < j -> ms !! j = Some t -> role t <> r
      | None => forall t, t ∈ ms -> role t <> r
      end.
Proof.
  split.
  - now rewrite select_spec, !first_of_rev.
  - intros r. destruct (last_position r ms) as [i|] eqn:H.
    + split; [now apply last_position_lookup|now apply last_position_later].
    + now apply last_position_None.
Qed.

Lemma list_index_first (x : Turn) (l : list Turn) i :
  list_index x l = Some i -> first_at x l i.
Proof.
  intros H. split; [now apply list_index_lookup|].
  revert i H. induction l as [|y l IH]; intros i H j Hlt; [discriminate|].
  simpl in H. case_bool_decide as Hy.
  - injection H as <-. lia.
  - destruct (list_index x l) as [k|]; [|discriminate].
    injection H as <-. destruct j as [|j]; simpl.
    + congruence.
    + apply (IH k eq_refl). lia.
Qed.

(** X11.  The rule of the chat display as the script applies it.  The display
    never fails and changes nothing but the page.  It draws the selected
    assistant turn first, when there is one; it draws the selected user
    turn after it exactly when the first position at which a turn equal
    to the user turn occurs is after the first position at which a turn
    equal to the assistant turn occurs; with no assistant turn it draws
    the user turn; on an empty transcript it draws nothing. *)
Theorem chat_display_rule (a : App) :
  let ms := messages (session_state a) in
  exists els,
    chat_display a = (Return tt, drawn a els)
    /\ match select ms with
       | (Some la, Some lu) =>
           exists ia iu,
             first_at la ms ia /\ first_at lu ms iu
             /\ els = ChatMessage assistant (content la)
                      :: (if ia <? iu then [ChatMessage user (content lu)]
                          else [])
       | (Some la, None) => els = [ChatMessage assistant (content la)]
       | (None, Some lu) => els = [ChatMessage user (content lu)]
       | (None, None) => els = []
       end.
Proof.
  intros ms. exists (rendered ms). split; [apply chat_display_drawn|].
  unfold rendered. destruct (select ms) as [la lu] eqn:Hsel.
  destruct (select_elem _ _ _ Hsel) as [Ha Hu].
  destruct la as [ta|], lu as [tu|]; try reflexivity.
  destruct (Ha ta eq_refl) as [Hina _], (Hu tu eq_refl) as [Hinu _].
  destruct (list_index_elem _ _ Hina) as [ia Hia].
  destruct (list_index_elem _ _ Hinu) as [iu Hiu].
  rewrite Hia, Hiu. exists ia, iu.
  auto using list_index_first.
Qed.

(** ** Output that is white space only *)







(** X12.  For code that ends without an error: when everything it wrote is
    white space (nothing at all, or only spaces and line feeds as after
    [print()]), the result is reported as "Code ran successfully (No
    output)"; otherwise the displayed result is the written text without
    the white space at its two ends, and it is not empty. *)



(** ** Transcripts without repeated turns *)

(** X13.  On a transcript in which no turn occurs twice, the chat display
    draws what the positional rule says: the most recent assistant turn,
    and after it the most recent user turn when that one comes later in
    the transcript. *)
Theorem chat_display_positional (a : App) :
  NoDup (messages (session_state a)) ->
  chat_display a
  = (Return tt, drawn a (display_by_position (messages (session_state a)))).
Proof.
  intros H. rewrite chat_display_drawn. now rewrite rendered_by_position.
Qed.

Lemma chat_display_positional_witness :
  NoDup (messages tutor_session ++ [turn user "next"])
  /\ chat_display (open_page (set_messages
       (messages tutor_session ++ [turn user "next"]) tutor_session))
     = (Return tt,
        drawn (open_page (set_messages
                 (messages tutor_session ++ [turn user "next"]) tutor_session))
          [ChatMessage assistant (lit "Use print to show a message.");
           ChatMessage user (lit "next")]).
Proof.
  assert (H : NoDup (messages tutor_session ++ [turn user "next"])).
  { apply (bool_decide_unpack _). vm_compute. exact I. }
  split; [exact H|].
  exact (chat_display_positional
           (open_page (set_messages
              (messages tutor_session ++ [turn user "next"]) tutor_session))
           H).
Defined.

Lemma last_position_snoc r (ms : list Turn) t :
  last_position r (ms ++ [t])
  = if bool_decide (role t = r) then Some (length ms) else last_position r ms.
Proof.
  induction ms as [|t0 ms IH]; simpl.
  - now case_bool_decide.
  - rewrite IH. case_bool_decide; [reflexivity|].
    reflexivity.
Qed.

Lemma rendered_after_reply (ms : list Turn) u t :
  role u = user -> role t = assistant ->
  NoDup (ms ++ [u; t]) ->
  rendered (ms ++ [u; t]) = [ChatMessage assistant (content t)].
Proof.
  intros Hu Ht Hnd. rewrite rendered_by_position by assumption.
  unfold display_by_position.
  change (ms ++ [u; t]) with (ms ++ [u] ++ [t]).
  rewrite app_assoc, !last_position_snoc, Ht, Hu.
  rewrite bool_decide_eq_true_2 by reflexivity.
  rewrite (bool_decide_eq_false_2 (assistant = user)) by discriminate.
  rewrite bool_decide_eq_true_2 by reflexivity.
  rewrite length_app. simpl.
  replace (length ms + 1 <? length ms) with false
    by (symmetry; apply Nat.ltb_ge; lia).
  rewrite app_nil_r.
  rewrite list_lookup_middle by (rewrite length_app; reflexivity).
  simpl. unfold shown_turn. now rewrite Ht.
Qed.

(** X14.  After a free-text send that the service answers, on a transcript
    that then holds no turn twice, the page shows the tutor's reply and
    nothing else: the prompt that was just sent is not displayed. *)
Theorem answered_prompt_is_not_displayed s inp env prompt text :
  chat_input inp = Some prompt -> truthy prompt = true ->
  run_button inp = false ->
  send_message env prompt = Response text ->
  NoDup (messages s ++ [{| role := user; content := prompt |};
                        {| role := assistant; content := text |}]) ->
  page (interact s (inp, env)) = [ChatMessage assistant text].
Proof.
  intros Hin Ht Hb Hsend Hnd. unfold interact.
  destruct (script inp env (open_page s)) as [o a1] eqn:Hs.
  unfold script in Hs.
  erewrite bind_Return in Hs by apply chat_display_drawn.
  rewrite Hin, Ht in Hs.
  erewrite bind_Rerun in Hs
    by (apply chat_input_handler_Response; exact Hsend).
  injection Hs as <- <-.
  rewrite script_idle. simpl. rewrite <- app_assoc. simpl.
  now rewrite rendered_after_reply.
Qed.

Lemma answered_prompt_is_not_displayed_witness :
  NoDup (messages tutor_session ++ [turn user "next"; turn assistant "Now add."])
  /\ page (interact tutor_session
             (free_text [] (lit "next") (Response (lit "Now add."))
                (python [] None)))
     = [ChatMessage assistant (lit "Now add.")].
Proof.
  assert (H : NoDup (messages tutor_session
                     ++ [turn user "next"; turn assistant "Now add."])).
  { apply (bool_decide_unpack _). vm_compute. exact I. }
  split; [exact H|].
  exact (answered_prompt_is_not_displayed tutor_session
           (fst (free_text [] (lit "next") (Response (lit "Now add."))
                   (python [] None)))
           (snd (free_text [] (lit "next") (Response (lit "Now add."))
                   (python [] None)))
           (lit "next") (lit "Now add.")
           eq_refl eq_refl eq_refl eq_refl H).
Defined.

(** ** Exceptions that leave the script *)











(** Without those two conditions an [Exception] does leave the script:
    [IndexError] from [messages[-1]] after the code emptied the
    transcript. *)
Example emptied_transcript_raises_IndexError :
  let python_clears : str -> gmap str PyVal -> SessionState -> Execution :=
    fun _ ns s =>
      {| written := []; closed := false; raised := None; assigned := ns;
         session_after := set_messages [] s; drew := [] |} in
  fst (script (run_click (lit "import streamlit as st"))
         (service (Response []) python_clears) (open_page tutor_session))
  = Raise IndexError.
Proof. reflexivity. Qed.
